(** * Shallow embedding of parts of the iceoryx2 publish/subscribe data plane

    Sources embedded:
    - iceoryx2/src/service/port_factory/subscriber.rs  (PortFactorySubscriber)
    - iceoryx2/src/service/dynamic_config/publish_subscribe.rs
        (mode_to_permission, PublisherDetails, SubscriberDetails,
         DynamicConfig::remove_dead_node_id)
    - iceoryx2-ffi/ffi/src/api/sample_mut.rs
        (iox2_sample_mut_move, iox2_sample_mut_payload(_mut), iox2_sample_mut_send)
    - the publisher / subscriber ports, whose code lives outside the embedded
      files and is modelled from the specification. *)

From Stdlib Require Import ZArith Lia.
From stdpp Require Import base list gmap strings.

Open Scope Z_scope.

(** ** Machine integers *)

Definition usize_max : Z := 2 ^ 64 - 1.
Definition u16_max : Z := 2 ^ 16 - 1.
Definition is_usize (v : Z) : Prop := 0 <= v <= usize_max.
Definition is_u16 (v : Z) : Prop := 0 <= v <= u16_max.

(** ** port_factory/subscriber.rs *)

Module PortFactorySubscriberModel.

Section Factory.
(** The degradation callback is an opaque closure, the factory reference an
    opaque pointer. *)
Variable DegradationCallback : Type.
Variable PortFactoryRef : Type.

Record SubscriberConfig := {
  buffer_size : option Z;
  degradation_callback : option DegradationCallback;
  owner_uid : option Z;
  group_gid : option Z;
  mode : option Z;
}.

Record PortFactorySubscriber := {
  config : SubscriberConfig;
  factory : PortFactoryRef;
}.

(** [pub unsafe fn __internal_partial_clone(&self) -> Self] *)
Definition internal_partial_clone (self : PortFactorySubscriber)
  : PortFactorySubscriber :=
  {| config := {| buffer_size := buffer_size (config self);
                  degradation_callback := None;
                  owner_uid := owner_uid (config self);
                  group_gid := group_gid (config self);
                  mode := mode (config self) |};
     factory := factory self |}.

(** [pub(crate) fn new(factory) -> Self] *)
Definition new (f : PortFactoryRef) : PortFactorySubscriber :=
  {| config := {| buffer_size := None; degradation_callback := None;
                  owner_uid := None; group_gid := None; mode := None |};
     factory := f |}.

(** [pub fn buffer_size(mut self, value: usize) -> Self]:
    [self.config.buffer_size = Some(value.max(1))] *)
Definition set_buffer_size (self : PortFactorySubscriber) (value : Z)
  : PortFactorySubscriber :=
  {| config := {| buffer_size := Some (Z.max value 1);
                  degradation_callback := degradation_callback (config self);
                  owner_uid := owner_uid (config self);
                  group_gid := group_gid (config self);
                  mode := mode (config self) |};
     factory := factory self |}.

(** [pub fn owner_uid(mut self, uid: u32) -> Self] *)
Definition set_owner_uid (self : PortFactorySubscriber) (uid : Z) : PortFactorySubscriber :=
  {| config := {| buffer_size := buffer_size (config self);
                  degradation_callback := degradation_callback (config self);
                  owner_uid := Some uid;
                  group_gid := group_gid (config self);
                  mode := mode (config self) |};
     factory := factory self |}.

(** [pub fn group_gid(mut self, gid: u32) -> Self] *)
Definition set_group_gid (self : PortFactorySubscriber) (gid : Z) : PortFactorySubscriber :=
  {| config := {| buffer_size := buffer_size (config self);
                  degradation_callback := degradation_callback (config self);
                  owner_uid := owner_uid (config self);
                  group_gid := Some gid;
                  mode := mode (config self) |};
     factory := factory self |}.

(** [pub fn mode(mut self, mode: u16) -> Self] *)
Definition set_mode (self : PortFactorySubscriber) (m : Z) : PortFactorySubscriber :=
  {| config := {| buffer_size := buffer_size (config self);
                  degradation_callback := degradation_callback (config self);
                  owner_uid := owner_uid (config self);
                  group_gid := group_gid (config self);
                  mode := Some m |};
     factory := factory self |}.

(** [pub fn permission(mut self, permission: Permission) -> Self]:
    [self.config.mode = Some(permission.bits() as u16)]; the [as u16] cast
    keeps the low 16 bits of the [u32] flag word. *)
Definition set_permission (self : PortFactorySubscriber) (permission : Z)
  : PortFactorySubscriber :=
  {| config := {| buffer_size := buffer_size (config self);
                  degradation_callback := degradation_callback (config self);
                  owner_uid := owner_uid (config self);
                  group_gid := group_gid (config self);
                  mode := Some (Z.land permission 65535) |};
     factory := factory self |}.

(** The closure type [F] handed to [set_degradation_callback] and
    [DegradationCallback::new], which boxes it. *)
Variable F : Type.
Variable DegradationCallback_new : F -> DegradationCallback.

(** [pub fn set_degradation_callback<F>(mut self, callback: Option<F>) -> Self] *)
Definition set_degradation_callback (self : PortFactorySubscriber) (callback : option F)
  : PortFactorySubscriber :=
  let cb := match callback with
            | Some c => Some (DegradationCallback_new c)
            | None => None
            end in
  {| config := {| buffer_size := buffer_size (config self);
                  degradation_callback := cb;
                  owner_uid := owner_uid (config self);
                  group_gid := group_gid (config self);
                  mode := mode (config self) |};
     factory := factory self |}.
End Factory.

Arguments internal_partial_clone {_ _} self.
Arguments new {_ _} f.
Arguments set_buffer_size {_ _} self value.
Arguments set_owner_uid {_ _} self uid.
Arguments set_group_gid {_ _} self gid.
Arguments set_mode {_ _} self m.
Arguments set_permission {_ _} self permission.
Arguments set_degradation_callback {_ _ _} DegradationCallback_new self callback.

End PortFactorySubscriberModel.

(** ** dynamic_config/publish_subscribe.rs *)

Module DynamicConfigModel.

(** POSIX permission flags of [iceoryx2_bb_posix::permission::Permission].
    Modelled from the spec: the flag constants live in the posix crate,
    outside the embedded files; the spec states that the mapping is the
    standard POSIX rwx triplet layout, so each flag is its POSIX bit. *)
Definition OWNER_READ : Z := 256.    (* 0o400 *)
Definition OWNER_WRITE : Z := 128.   (* 0o200 *)
Definition OWNER_EXEC : Z := 64.     (* 0o100 *)
Definition GROUP_READ : Z := 32.     (* 0o040 *)
Definition GROUP_WRITE : Z := 16.    (* 0o020 *)
Definition GROUP_EXEC : Z := 8.      (* 0o010 *)
Definition OTHERS_READ : Z := 4.     (* 0o004 *)
Definition OTHERS_WRITE : Z := 2.    (* 0o002 *)
Definition OTHERS_EXEC : Z := 1.     (* 0o001 *)

(** A [Permission] is a bitflags set over a [u32]. *)
Definition Permission := Z.
Definition permission_none : Permission := 0.
(** [p |= flag] *)
Definition permission_or (p flag : Permission) : Permission := Z.lor p flag.
(** bitflags' [contains]: every bit of [flag] is set in [p]. *)
Definition contains (p flag : Permission) : bool := Z.eqb (Z.land p flag) flag.

(** [fn mode_to_permission(mode: u16) -> Permission] *)
Definition mode_to_permission (mode : Z) : Permission :=
  let p := permission_none in
  let p := if negb (Z.eqb (Z.land mode 256) 0) then permission_or p OWNER_READ else p in
  let p := if negb (Z.eqb (Z.land mode 128) 0) then permission_or p OWNER_WRITE else p in
  let p := if negb (Z.eqb (Z.land mode 64) 0) then permission_or p OWNER_EXEC else p in
  let p := if negb (Z.eqb (Z.land mode 32) 0) then permission_or p GROUP_READ else p in
  let p := if negb (Z.eqb (Z.land mode 16) 0) then permission_or p GROUP_WRITE else p in
  let p := if negb (Z.eqb (Z.land mode 8) 0) then permission_or p GROUP_EXEC else p in
  let p := if negb (Z.eqb (Z.land mode 4) 0) then permission_or p OTHERS_READ else p in
  let p := if negb (Z.eqb (Z.land mode 2) 0) then permission_or p OTHERS_WRITE else p in
  let p := if negb (Z.eqb (Z.land mode 1) 0) then permission_or p OTHERS_EXEC else p in
  p.

(** The nine (flag, POSIX mode bit) pairs. *)
Definition posix_flags : list (Permission * Z) :=
  [(OWNER_READ, 256); (OWNER_WRITE, 128); (OWNER_EXEC, 64);
   (GROUP_READ, 32); (GROUP_WRITE, 16); (GROUP_EXEC, 8);
   (OTHERS_READ, 4); (OTHERS_WRITE, 2); (OTHERS_EXEC, 1)].

(** One [if mode & 2^k != 0 { p |= 2^k }] step of [mode_to_permission]. *)
Definition mode_bit_step (mode k : Z) (p : Permission) : Permission :=
  if negb (Z.eqb (Z.land mode (2 ^ k)) 0) then permission_or p (2 ^ k) else p.

Definition NodeId := Z.
Definition UniquePublisherId := Z.
Definition UniqueSubscriberId := Z.

Inductive DataSegmentType := Static | Dynamic.

Inductive UniquePortId :=
| Publisher (id : UniquePublisherId)
| Subscriber (id : UniqueSubscriberId).

Inductive PortCleanupAction := RemovePort | SkipPort.

Definition PortCleanupAction_eqb (a b : PortCleanupAction) : bool :=
  match a, b with
  | RemovePort, RemovePort | SkipPort, SkipPort => true
  | _, _ => false
  end.

Record PublisherDetails := {
  publisher_id : UniquePublisherId;
  pub_node_id : NodeId;
  number_of_samples : Z;
  max_slice_len : Z;
  data_segment_type : DataSegmentType;
  max_number_of_segments : Z;
  pub_owner_uid : Z;
  pub_group_gid : Z;
  pub_mode : Z;
}.

Module PublisherDetails.
(** [pub fn mode(&self) -> u16] *)
Definition mode (self : PublisherDetails) : Z := pub_mode self.
(** [pub fn permission(&self) -> Permission] *)
Definition permission (self : PublisherDetails) : Permission :=
  mode_to_permission (pub_mode self).
(** [pub fn set_mode(&mut self, mode: u16)] *)
Definition set_mode (self : PublisherDetails) (mode : Z) : PublisherDetails :=
  {| publisher_id := publisher_id self; pub_node_id := pub_node_id self;
     number_of_samples := number_of_samples self;
     max_slice_len := max_slice_len self;
     data_segment_type := data_segment_type self;
     max_number_of_segments := max_number_of_segments self;
     pub_owner_uid := pub_owner_uid self; pub_group_gid := pub_group_gid self;
     pub_mode := mode |}.
(** [pub fn set_permission(&mut self, permission: Permission)]:
    [self.mode = permission.bits() as u16] *)
Definition set_permission (self : PublisherDetails) (permission : Permission)
  : PublisherDetails :=
  set_mode self (Z.land permission 65535).
End PublisherDetails.

Record SubscriberDetails := {
  subscriber_id : UniqueSubscriberId;
  sub_node_id : NodeId;
  buffer_size : Z;
  sub_owner_uid : Z;
  sub_group_gid : Z;
  sub_mode : Z;
}.

Module SubscriberDetails.
(** [pub fn mode(&self) -> u16] *)
Definition mode (self : SubscriberDetails) : Z := sub_mode self.
(** [pub fn permission(&self) -> Permission] *)
Definition permission (self : SubscriberDetails) : Permission :=
  mode_to_permission (sub_mode self).
(** [pub fn set_mode(&mut self, mode: u16)] *)
Definition set_mode (self : SubscriberDetails) (mode : Z) : SubscriberDetails :=
  {| subscriber_id := subscriber_id self; sub_node_id := sub_node_id self;
     buffer_size := buffer_size self;
     sub_owner_uid := sub_owner_uid self; sub_group_gid := sub_group_gid self;
     sub_mode := mode |}.
(** [pub fn set_permission(&mut self, permission: Permission)]:
    [self.mode = permission.bits() as u16] *)
Definition set_permission (self : SubscriberDetails) (permission : Permission)
  : SubscriberDetails :=
  set_mode self (Z.land permission 65535).
End SubscriberDetails.

(** The lock-free [Container]: entries with their stable handles, in the
    order [for_each] visits them. [remove] releases the entry of a handle. *)
Definition ContainerHandle := nat.
Definition Container (A : Type) := list (ContainerHandle * A).

Definition container_remove {A} (h : ContainerHandle) (c : Container A) : Container A :=
  List.filter (fun e => negb (Nat.eqb (fst e) h)) c.

Record DynamicConfig := {
  subscribers : Container SubscriberDetails;
  publishers : Container PublisherDetails;
}.

(** [release_publisher_handle] / [release_subscriber_handle] *)
Definition release_publisher_handle (self : DynamicConfig) (h : ContainerHandle) :=
  {| subscribers := subscribers self; publishers := container_remove h (publishers self) |}.
Definition release_subscriber_handle (self : DynamicConfig) (h : ContainerHandle) :=
  {| subscribers := container_remove h (subscribers self); publishers := publishers self |}.

Section RemoveDeadNode.
(** The [FnMut] cleanup callback with its captured state [S]. Every call is
    recorded in a trace of (argument, answer) pairs. *)
Variable S : Type.
Variable port_cleanup_callback : S -> UniquePortId -> S * PortCleanupAction.

Definition Trace := list (UniquePortId * PortCleanupAction).

(** One [get_state().for_each(..)] loop of [remove_dead_node_id]: it walks
    the snapshot taken by [get_state] and releases handles through
    [release]. The [&&] short-circuits: the callback is only called for
    entries of the dead node. *)
Fixpoint sweep {A} (node_of : A -> NodeId) (port_of : A -> UniquePortId)
    (release : DynamicConfig -> ContainerHandle -> DynamicConfig)
    (node_id : NodeId) (snapshot : Container A)
    (self : DynamicConfig) (s : S) (tr : Trace) : DynamicConfig * S * Trace :=
  match snapshot with
  | [] => (self, s, tr)
  | (handle, registered) :: rest =>
      if Z.eqb (node_of registered) node_id then
        let '(s', action) := port_cleanup_callback s (port_of registered) in
        let self' := if PortCleanupAction_eqb action RemovePort
                     then release self handle else self in
        sweep node_of port_of release node_id rest self' s'
              (tr ++ [(port_of registered, action)])
      else sweep node_of port_of release node_id rest self s tr
  end.

Definition pub_port (p : PublisherDetails) : UniquePortId := Publisher (publisher_id p).
Definition sub_port (p : SubscriberDetails) : UniquePortId := Subscriber (subscriber_id p).

(** [pub(crate) unsafe fn remove_dead_node_id(&self, node_id, port_cleanup_callback)] *)
Definition remove_dead_node_id (self : DynamicConfig) (node_id : NodeId) (s : S)
  : DynamicConfig * S * Trace :=
  let '(self1, s1, tr1) :=
    sweep pub_node_id pub_port release_publisher_handle node_id
          (publishers self) self s [] in
  sweep sub_node_id sub_port release_subscriber_handle node_id
        (subscribers self1) self1 s1 tr1.
End RemoveDeadNode.

Arguments sweep {S} port_cleanup_callback {A} node_of port_of release node_id snapshot self s tr.
Arguments remove_dead_node_id {S} port_cleanup_callback self node_id s.

(** The snapshot entries [remove_dead_node_id] hands to the callback. *)
Definition matching {A} (node_of : A -> NodeId) (node_id : NodeId)
    (e : ContainerHandle * A) : bool :=
  Z.eqb (node_of (snd e)) node_id.

(** [pub fn number_of_publishers(&self) -> usize]: [self.publishers.len()],
    the number of live entries of the container. *)
Definition number_of_publishers (self : DynamicConfig) : nat := length (publishers self).
(** [pub fn number_of_subscribers(&self) -> usize] *)
Definition number_of_subscribers (self : DynamicConfig) : nat := length (subscribers self).

Definition is_publisher_port (p : UniquePortId) : bool :=
  match p with Publisher _ => true | Subscriber _ => false end.
Definition is_subscriber_port (p : UniquePortId) : bool :=
  match p with Publisher _ => false | Subscriber _ => true end.

(** How many callback calls of a trace, on ports selected by [P], answered
    [RemovePort]. *)
Definition count_removed (P : UniquePortId -> bool) (tr : Trace) : nat :=
  length (List.filter
            (fun pa => P (fst pa) && PortCleanupAction_eqb (snd pa) RemovePort) tr).
End DynamicConfigModel.

(** ** iceoryx2-ffi/ffi/src/api/sample_mut.rs *)

Module SampleMutFfi.

Inductive iox2_service_type_e := IPC | LOCAL.

(** The deleters stored in [iox2_sample_mut_t]: a no-op one when the caller
    provided the storage, and the one that frees heap storage otherwise. *)
Inductive Deleter := NoOpDeleter | DeallocDeleter.

Section Storage.
(** The bytes of a [SampleMutUninitUnion]; its [ipc] and [local] members are
    two readings of the same bytes. *)
Variable SampleMutUninitUnion : Type.

(** [iox2_sample_mut_t]; its [value: iox2_sample_mut_storage_t] holds an
    [Option<SampleMutUninitUnion>]. *)
Record iox2_sample_mut_t := {
  service_type : iox2_service_type_e;
  value : option SampleMutUninitUnion;
  deleter : Deleter;
}.

Definition set_service_type (c : iox2_sample_mut_t) t :=
  {| service_type := t; value := value c; deleter := deleter c |}.
Definition set_value (c : iox2_sample_mut_t) v :=
  {| service_type := service_type c; value := v; deleter := deleter c |}.
Definition set_deleter (c : iox2_sample_mut_t) d :=
  {| service_type := service_type c; value := value c; deleter := d |}.

(** Memory: the sample structs by address, and pointer-sized words
    (handles, [*mut c_void] and [c_size_t] out-parameters) by address.
    The address [0] is [null]. *)
Record Mem := {
  cells : gmap Z iox2_sample_mut_t;
  words : gmap Z Z;
}.

Inductive Outcome (A : Type) :=
| Done (a : A)
| Panic (msg : string)
| Undefined.

(** The effect of an [unsafe extern "C" fn]: memory in, outcome out. *)
Definition M (A : Type) := Mem -> Outcome (A * Mem).

Definition ret {A} (a : A) : M A := fun m => Done _ (a, m).
Definition bind {A B} (c : M A) (k : A -> M B) : M B :=
  fun m => match c m with
           | Done _ (a, m') => k a m'
           | Panic _ msg => Panic _ msg
           | Undefined _ => Undefined _
           end.
Definition panic {A} (msg : string) : M A := fun _ => Panic _ msg.

(** [&mut *ptr]: dereferencing a dangling struct pointer is undefined. *)
Definition read_cell (p : Z) : M iox2_sample_mut_t :=
  fun m => match cells m !! p with
           | Some c => Done _ (c, m)
           | None => Undefined _
           end.
Definition write_cell (p : Z) (c : iox2_sample_mut_t) : M unit :=
  fun m => match cells m !! p with
           | Some _ => Done _ (tt, {| cells := <[p := c]> (cells m); words := words m |})
           | None => Undefined _
           end.
Definition read_word (p : Z) : M Z :=
  fun m => match words m !! p with
           | Some w => Done _ (w, m)
           | None => Undefined _
           end.
(** [*p = w] through a valid out-pointer. *)
Definition write_word (p : Z) (w : Z) : M unit :=
  fun m => Done _ (tt, {| cells := cells m; words := <[p := w]> (words m) |}).
(** [(sample_struct.deleter)(sample_struct)]. The dealloc deleter frees the
    struct; the memory does not record whether a struct lives on the heap,
    so this is its meaning only for heap structs: running it on a struct in
    caller-provided storage is undefined in the source and is not told
    apart here. *)
Definition run_deleter (d : Deleter) (p : Z) : M unit :=
  match d with
  | NoOpDeleter => ret tt
  | DeallocDeleter =>
      fun m => Done _ (tt, {| cells := delete p (cells m); words := words m |})
  end.
End Storage.

Arguments Done {_} a.
Arguments Panic {_} msg.
Arguments Undefined {_}.
Arguments service_type {_} _.
Arguments value {_} _.
Arguments deleter {_} _.
Arguments cells {_} _.
Arguments words {_} _.
Arguments set_service_type {_} c t.
Arguments set_value {_} c v.
Arguments set_deleter {_} c d.
Arguments ret {_ _} a _.
Arguments bind {_ _ _} c k _.
Arguments panic {_ _} msg _.
Arguments read_cell {_} p _.
Arguments write_cell {_} p c _.
Arguments read_word {_} p _.
Arguments write_word {_} p w _.
Arguments run_deleter {_} d p _.

Notation "x <- c ;; k" := (bind c (fun x => k))
  (at level 100, c at next level, right associativity).
Notation "c ;;; k" := (bind c (fun _ => k)) (at level 100, right associativity).

Section Api.
Variable U : Type.

(** [.take()] on the storage option: returns the content, leaves [None]. *)
Definition take_value (p : Z) : M U (option U) :=
  c <- read_cell p ;;
  write_cell p (set_value c None) ;;;
  ret (value c).

(** [dest.value.init(x)]: the storage holds [Some(x)] afterwards. *)
Definition init_value (p : Z) (x : U) : M U unit :=
  c <- read_cell p ;;
  write_cell p (set_value c (Some x)).

(** [sample.value.as_mut()]: the storage accessor generated for the FFI
    struct. Its code is outside the embedded files; an empty storage is
    given no defined meaning here (no claim reads through one). *)
Definition as_mut (c : iox2_sample_mut_t U) : M U U :=
  match value c with
  | Some u => ret u
  | None => fun _ => Undefined
  end.

(** [pub unsafe extern "C" fn iox2_sample_mut_move(source_struct_ptr,
    dest_struct_ptr, dest_handle_ptr)]; [as_handle] is the struct address. *)
Definition iox2_sample_mut_move (source_struct_ptr dest_struct_ptr dest_handle_ptr : Z)
  : M U unit :=
  source <- read_cell source_struct_ptr ;;
  dest <- read_cell dest_struct_ptr ;;
  write_cell dest_struct_ptr (set_service_type dest (service_type source)) ;;;
  taken <- take_value source_struct_ptr ;;
  x <- (match taken with
        | Some x => ret x
        | None => panic "Source must have a valid sample"
        end) ;;
  init_value dest_struct_ptr x ;;;
  source <- read_cell source_struct_ptr ;;
  dest <- read_cell dest_struct_ptr ;;
  write_cell dest_struct_ptr (set_deleter dest (deleter source)) ;;;
  write_word dest_handle_ptr dest_struct_ptr.

(** The two members of the union read by the payload accessors:
    [ipc.payload_mut().as_mut_ptr()] and
    [local.header().number_of_elements()]. *)
Variable ipc_payload_mut_ptr : U -> Z.
Variable local_number_of_elements : U -> Z.

(** [pub unsafe extern "C" fn iox2_sample_mut_payload_mut(handle,
    payload_ptr, number_of_elements)]; [handle] points to the handle word. *)
Definition iox2_sample_mut_payload_mut (handle payload_ptr number_of_elements : Z)
  : M U unit :=
  h <- read_word handle ;;
  sample <- read_cell h ;;
  u <- as_mut sample ;;
  let payload := ipc_payload_mut_ptr u in
  (match service_type sample with
   | IPC => write_word payload_ptr payload
   | LOCAL => write_word payload_ptr payload
   end) ;;;
  if negb (Z.eqb number_of_elements 0) then
    sample <- read_cell h ;;
    u <- as_mut sample ;;
    write_word number_of_elements (local_number_of_elements u)
  else ret tt.

(** [pub unsafe extern "C" fn iox2_sample_mut_payload(handle, payload_ptr,
    number_of_elements)] *)
Definition iox2_sample_mut_payload (handle payload_ptr number_of_elements : Z)
  : M U unit :=
  h <- read_word handle ;;
  sample <- read_cell h ;;
  u <- as_mut sample ;;
  let payload := ipc_payload_mut_ptr u in
  (match service_type sample with
   | IPC => write_word payload_ptr payload
   | LOCAL => write_word payload_ptr payload
   end) ;;;
  if negb (Z.eqb number_of_elements 0) then
    sample <- read_cell h ;;
    u <- as_mut sample ;;
    write_word number_of_elements (local_number_of_elements u)
  else ret tt.

(** The terminal [sample.assume_init().send()] of the port and
    [e.into_c_int()]; both live outside the embedded files. *)
Variable SendError : Type.
Variable port_send : iox2_service_type_e -> U -> sum Z SendError.
Variable into_c_int : SendError -> Z.

Definition IOX2_OK : Z := 0.

(** [pub unsafe extern "C" fn iox2_sample_mut_send(sample_handle,
    number_of_recipients) -> c_int] *)
Definition iox2_sample_mut_send (sample_handle number_of_recipients : Z) : M U Z :=
  sample_struct <- read_cell sample_handle ;;
  let service_type := service_type sample_struct in
  taken <- take_value sample_handle ;;
  sample <- (match taken with
             | Some s => ret s
             | None => panic "Trying to send an already sent sample!"
             end) ;;
  run_deleter (deleter sample_struct) sample_handle ;;;
  match service_type with
  | IPC =>
      match port_send IPC sample with
      | inl v =>
          (if negb (Z.eqb number_of_recipients 0)
           then write_word number_of_recipients v else ret tt) ;;;
          ret IOX2_OK
      | inr e => ret (into_c_int e)
      end
  | LOCAL =>
      match port_send LOCAL sample with
      | inl v =>
          (if negb (Z.eqb number_of_recipients 0)
           then write_word number_of_recipients v else ret tt) ;;;
          ret IOX2_OK
      | inr e => ret (into_c_int e)
      end
  end.

(** [pub unsafe extern "C" fn iox2_sample_mut_drop(sample_handle)].
    [ManuallyDrop::drop(&mut sample.value.as_mut().ipc)] runs the sample's
    own [Drop] in place, in the port, outside the memory modelled here; the
    storage keeps its bytes, so its option is left as it was. *)
Definition iox2_sample_mut_drop (sample_handle : Z) : M U unit :=
  sample <- read_cell sample_handle ;;
  (match service_type sample with
   | IPC => _ <- as_mut sample ;; ret tt
   | LOCAL => _ <- as_mut sample ;; ret tt
   end) ;;;
  run_deleter (deleter sample) sample_handle.

(** [pub(super) fn init(&mut self, service_type, value, deleter)] of
    [iox2_sample_mut_t], on the struct at [self_ptr]. *)
Definition init (self_ptr : Z) (st : iox2_service_type_e) (v : U) (d : Deleter)
  : M U unit :=
  self <- read_cell self_ptr ;;
  write_cell self_ptr (set_service_type self st) ;;;
  init_value self_ptr v ;;;
  self <- read_cell self_ptr ;;
  write_cell self_ptr (set_deleter self d).
End Api.

(** The memory [m] with the struct at [h] carrying the service-type tag [t]. *)
Definition with_service_type {U} (m : Mem U) (h : Z) (c : iox2_sample_mut_t U)
    (t : iox2_service_type_e) : Mem U :=
  {| cells := <[h := set_service_type c t]> (cells m); words := words m |}.

(** The words after a payload accessor: the payload pointer read through the
    [ipc] member, then, for a non-null [number_of_elements], the count read
    through the [local] member. *)
Definition payload_outputs {U} (ipc_payload_mut_ptr local_number_of_elements : U -> Z)
    (m : Mem U) (u : U) (payload_ptr number_of_elements : Z) : gmap Z Z :=
  if Z.eqb number_of_elements 0
  then <[payload_ptr := ipc_payload_mut_ptr u]> (words m)
  else <[number_of_elements := local_number_of_elements u]>
         (<[payload_ptr := ipc_payload_mut_ptr u]> (words m)).
End SampleMutFfi.

(** ** Publisher and subscriber ports *)

(** Modelled from the spec: the publisher port ([loan_uninit], [loan],
    [loan_slice], [write_payload], [send], drop of an unsent sample) and the
    subscriber port ([receive]), whose code is outside the embedded files
    (only their tests are there). Followed from the spec's words:
    - the outstanding-loan counter is incremented on each successful loan and
      decremented on drop-without-send or on send; when it equals
      [max_loaned_samples] a loan fails with [ExceedsMaxLoans];
    - [loan_slice(n)] fails with [ExceedsMaxLoanSize] when [n] exceeds the
      publisher's configured max slice length, and otherwise is a loan over
      [n] default-filled elements;
    - [send] decrements the counter before the fan-out, then enqueues the slot
      into every subscriber's bounded queue: with room it is pushed; when full,
      safe overflow evicts the oldest entry first, otherwise the
      [DiscardSample] policy skips that subscriber; it returns the number of
      subscribers that got the sample;
    - [receive] pops the oldest queued slot and exposes its payload.
    Payload elements are [u64] values ([Z]); a slot is an index into the data
    segment, which maps written slots to their elements. Slots are taken
    fresh on every loan, so a slot still referenced is never reused; the
    capacity of the segment (and [OutOfMemory]) and the [Block] policy, which
    needs a second thread, are left out. *)
Module PubSub.

Local Open Scope nat_scope.

Inductive LoanError := ExceedsMaxLoans | ExceedsMaxLoanSize.

Definition Slot := nat.

Record SubscriberPort := {
  buffer_size : nat;
  queue : list Slot;
}.

Record State := {
  max_loaned_samples : nat;
  max_slice_len : nat;
  enable_safe_overflow : bool;
  loan_counter : nat;
  next_slot : nat;
  segment : gmap Slot (list Z);
  subscriber_ports : list SubscriberPort;
}.

Definition update (st : State) (counter next : nat) (seg : gmap Slot (list Z))
    (subs : list SubscriberPort) : State :=
  {| max_loaned_samples := max_loaned_samples st;
     max_slice_len := max_slice_len st;
     enable_safe_overflow := enable_safe_overflow st;
     loan_counter := counter; next_slot := next;
     segment := seg; subscriber_ports := subs |}.

(** A publisher freshly created on a service with the given subscribers. *)
Definition create (max_loans initial_max_slice_len : nat) (safe_overflow : bool)
    (subs : list SubscriberPort) : State :=
  {| max_loaned_samples := max_loans;
     max_slice_len := initial_max_slice_len;
     enable_safe_overflow := safe_overflow;
     loan_counter := 0; next_slot := 0;
     segment := ∅; subscriber_ports := subs |}.

(** Sample tokens: uninitialised (slot and element count) and initialised. *)
Record SampleMutUninit := { uninit_slot : Slot; uninit_len : nat }.
Record SampleMut := { init_slot : Slot }.

(** The default value of the [u64] payload. *)
Definition default_value : Z := 0.

(** The common loan path: the loan counter check, then a fresh slot. *)
Definition loan_sample (len : nat) (st : State)
    : (State * SampleMutUninit) + LoanError :=
  if Nat.eqb (loan_counter st) (max_loaned_samples st) then inr ExceedsMaxLoans
  else inl (update st (S (loan_counter st)) (S (next_slot st)) (segment st)
              (subscriber_ports st),
            {| uninit_slot := next_slot st; uninit_len := len |}).

Definition loan_uninit (st : State) := loan_sample 1 st.

(** [write_payload(v)] consumes the uninitialised sample. *)
Definition write_payload (s : SampleMutUninit) (v : Z) (st : State)
    : State * SampleMut :=
  (update st (loan_counter st) (next_slot st)
     (<[uninit_slot s := [v]]> (segment st)) (subscriber_ports st),
   {| init_slot := uninit_slot s |}).

(** Writes a whole slice into an uninitialised slice sample. *)
Definition write_slice (s : SampleMutUninit) (xs : list Z) (st : State)
    : State * SampleMut :=
  (update st (loan_counter st) (next_slot st)
     (<[uninit_slot s := xs]> (segment st)) (subscriber_ports st),
   {| init_slot := uninit_slot s |}).

Definition loan (st : State) : (State * SampleMut) + LoanError :=
  match loan_uninit st with
  | inl (st1, s) => inl (write_payload s default_value st1)
  | inr e => inr e
  end.

Definition loan_slice_uninit (n : nat) (st : State)
    : (State * SampleMutUninit) + LoanError :=
  if Nat.ltb (max_slice_len st) n then inr ExceedsMaxLoanSize
  else loan_sample n st.

Definition loan_slice (n : nat) (st : State) : (State * SampleMut) + LoanError :=
  match loan_slice_uninit n st with
  | inl (st1, s) => inl (write_slice s (repeat default_value (uninit_len s)) st1)
  | inr e => inr e
  end.

(** The payload a sample exposes. *)
Definition payload (st : State) (s : SampleMut) : list Z :=
  from_option id [] (segment st !! init_slot s).

(** Dropping an unsent sample: the counter goes down, the slot is released. *)
Definition drop_sample (slot : Slot) (st : State) : State :=
  update st (Nat.pred (loan_counter st)) (next_slot st)
    (delete slot (segment st)) (subscriber_ports st).

Definition drop_uninit (s : SampleMutUninit) (st : State) := drop_sample (uninit_slot s) st.
Definition drop (s : SampleMut) (st : State) := drop_sample (init_slot s) st.

(** Enqueueing into one subscriber's bounded queue. *)
Definition enqueue (safe_overflow : bool) (slot : Slot) (sub : SubscriberPort)
    : SubscriberPort * bool :=
  if Nat.ltb (length (queue sub)) (buffer_size sub) then
    ({| buffer_size := buffer_size sub; queue := queue sub ++ [slot] |}, true)
  else if safe_overflow then
    ({| buffer_size := buffer_size sub; queue := tail (queue sub) ++ [slot] |}, true)
  else (sub, false).

Fixpoint deliver (safe_overflow : bool) (slot : Slot) (subs : list SubscriberPort)
    : list SubscriberPort * nat :=
  match subs with
  | [] => ([], 0)
  | sub :: rest =>
      let '(sub', delivered) := enqueue safe_overflow slot sub in
      let '(rest', n) := deliver safe_overflow slot rest in
      (sub' :: rest', if delivered then S n else n)
  end.

Definition send (s : SampleMut) (st : State) : State * nat :=
  let st1 := update st (Nat.pred (loan_counter st)) (next_slot st) (segment st)
               (subscriber_ports st) in
  let '(subs', n) := deliver (enable_safe_overflow st1) (init_slot s)
                       (subscriber_ports st1) in
  (update st1 (loan_counter st1) (next_slot st1) (segment st1) subs', n).

(** [receive()] on the [i]-th subscriber. *)
Definition receive (i : nat) (st : State) : option (list Z) * State :=
  match subscriber_ports st !! i with
  | Some sub =>
      match queue sub with
      | [] => (None, st)
      | slot :: rest =>
          (Some (from_option id [] (segment st !! slot)),
           update st (loan_counter st) (next_slot st) (segment st)
             (<[i := {| buffer_size := buffer_size sub; queue := rest |}]>
                (subscriber_ports st)))
      end
  | None => (None, st)
  end.

(** [loan_uninit(); write_payload(v); send()] *)
Definition publish (v : Z) (st : State) : State + LoanError :=
  match loan_uninit st with
  | inl (st1, s) =>
      let '(st2, s') := write_payload s v st1 in
      inl (fst (send s' st2))
  | inr e => inr e
  end.

Fixpoint publish_all (vs : list Z) (st : State) : State + LoanError :=
  match vs with
  | [] => inl st
  | v :: rest =>
      match publish v st with
      | inl st' => publish_all rest st'
      | inr e => inr e
      end
  end.

(** The payloads a subscriber would read from its queue, oldest first. *)
Definition queued_payloads (st : State) (sub : SubscriberPort) : list (list Z) :=
  map (fun slot => from_option id [] (segment st !! slot)) (queue sub).

(** ** Scripts of publisher operations

    A publisher program holding several samples at once, as in the tests:
    each loan adds a sample handle, and [write_payload], [send] and [drop]
    name the handle they consume. A handle that was moved or never existed
    is a compile error in Rust; the script stops there with [None]. *)
Inductive Handle :=
| HUninit (s : SampleMutUninit)
| HInit (s : SampleMut).

Definition handle_slot (h : Handle) : Slot :=
  match h with
  | HUninit s => uninit_slot s
  | HInit s => init_slot s
  end.

(** Dropping a sample handle, initialised or not. *)
Definition drop_handle (h : Handle) (st : State) : State :=
  match h with
  | HUninit s => drop_uninit s st
  | HInit s => drop s st
  end.

(** [loan_uninit()], [write_payload(v)] and [send()] and [drop] of the
    sample held by handle [k], and [send_copy(v)]. *)
Inductive Op :=
| OpLoanUninit
| OpWritePayload (k : nat) (v : Z)
| OpSend (k : nat)
| OpDrop (k : nat)
| OpSendCopy (v : Z).

Definition step (op : Op) (env : list (option Handle)) (st : State)
    : option (list (option Handle) * State) :=
  match op with
  | OpLoanUninit =>
      match loan_uninit st with
      | inl (st1, s) => Some (env ++ [Some (HUninit s)], st1)
      | inr _ => None
      end
  | OpWritePayload k v =>
      match env !! k with
      | Some (Some (HUninit s)) =>
          let '(st1, s') := write_payload s v st in
          Some (<[k := Some (HInit s')]> env, st1)
      | _ => None
      end
  | OpSend k =>
      match env !! k with
      | Some (Some (HInit s)) => Some (<[k := None]> env, fst (send s st))
      | _ => None
      end
  | OpDrop k =>
      match env !! k with
      | Some (Some h) => Some (<[k := None]> env, drop_handle h st)
      | _ => None
      end
  | OpSendCopy v =>
      match publish v st with
      | inl st1 => Some (env, st1)
      | inr _ => None
      end
  end.

Fixpoint run (ops : list Op) (env : list (option Handle)) (st : State)
    : option (list (option Handle) * State) :=
  match ops with
  | [] => Some (env, st)
  | op :: rest =>
      match step op env st with
      | Some (env', st') => run rest env' st'
      | None => None
      end
  end.

(** The values a script sends, in the order of its sends, read off the
    script alone: [w] holds the value written into each handle. *)
Definition sent_step (op : Op) (w : list (option Z)) : list (option Z) * list Z :=
  match op with
  | OpLoanUninit => (w ++ [None], [])
  | OpWritePayload k v => (<[k := Some v]> w, [])
  | OpSend k =>
      match w !! k with
      | Some (Some v) => (<[k := None]> w, [v])
      | _ => (<[k := None]> w, [])
      end
  | OpDrop k => (<[k := None]> w, [])
  | OpSendCopy v => (w, [v])
  end.

Fixpoint sent_values (ops : list Op) (w : list (option Z)) : list Z :=
  match ops with
  | [] => []
  | op :: rest => let '(w', out) := sent_step op w in out ++ sent_values rest w'
  end.

(** What a script keeps true, seen from the [i]-th subscriber [sub] with
    buffer size [B], with [sent] the values sent so far: the live handles
    own distinct slots, below [next_slot] and outside the queue, an
    initialised handle's slot holds the value written into it, and the
    queue holds the sent values in order (all of them while they fit). *)
Definition script_inv (i B : nat) (env : list (option Handle)) (w : list (option Z))
    (st : State) (sub : SubscriberPort) (sent : list Z) : Prop :=
  subscriber_ports st !! i = Some sub /\
  buffer_size sub = B /\
  length env = length w /\
  (forall k s, env !! k = Some (Some (HInit s)) ->
     exists v, w !! k = Some (Some v) /\ segment st !! init_slot s = Some [v]) /\
  (forall k h, env !! k = Some (Some h) ->
     handle_slot h < next_slot st /\ handle_slot h ∉ queue sub) /\
  (forall k j h1 h2, env !! k = Some (Some h1) -> env !! j = Some (Some h2) ->
     k <> j -> handle_slot h1 <> handle_slot h2) /\
  Forall (fun s => s < next_slot st) (queue sub) /\
  queued_payloads st sub `sublist_of` map (fun v => [v]) sent /\
  (length sent <= B ->
   queued_payloads st sub = map (fun v => [v]) sent /\ length (queue sub) = length sent).

(** [n] calls of [receive()] on the [i]-th subscriber, up to the first [None]. *)
Fixpoint drain (i n : nat) (st : State) : list (list Z) :=
  match n with
  | 0 => []
  | S n' =>
      match receive i st with
      | (Some p, st') => p :: drain i n' st'
      | (None, _) => []
      end
  end.

End PubSub.

(** * Theorems *)

Section FactoryTheorems.
Import PortFactorySubscriberModel.
Context {DegradationCallback PortFactoryRef : Type}.

(** C9: [PortFactorySubscriber::buffer_size(v)] is total and configures the
    subscriber buffer size [max(v, 1)]; in particular [buffer_size(0)]
    configures a buffer of size 1 instead of rejecting the value. *)
Theorem buffer_size_is_max_one
    (self : PortFactorySubscriber DegradationCallback PortFactoryRef) (v : Z) :
  buffer_size _ (config _ _ (set_buffer_size self v)) = Some (Z.max v 1) /\
  buffer_size _ (config _ _ (set_buffer_size self 0)) = Some 1.
Proof. split; reflexivity. Qed.

(** C10: [__internal_partial_clone] copies [buffer_size], [owner_uid],
    [group_gid], [mode] and the factory reference, and the clone's
    degradation callback is always [None]. *)
Theorem partial_clone_fields
    (self : PortFactorySubscriber DegradationCallback PortFactoryRef) :
  let c := internal_partial_clone self in
  buffer_size _ (config _ _ c) = buffer_size _ (config _ _ self) /\
  owner_uid _ (config _ _ c) = owner_uid _ (config _ _ self) /\
  group_gid _ (config _ _ c) = group_gid _ (config _ _ self) /\
  mode _ (config _ _ c) = mode _ (config _ _ self) /\
  factory _ _ c = factory _ _ self /\
  degradation_callback _ (config _ _ c) = None.
Proof. repeat split. Qed.
End FactoryTheorems.

Module PermissionFacts.
Import DynamicConfigModel.

Lemma land_pow2_eqb_0 (m k : Z) :
  0 <= k -> Z.eqb (Z.land m (2 ^ k)) 0 = negb (Z.testbit m k).
Proof.
  intros Hk. destruct (Z.testbit m k) eqn:E; simpl.
  - apply Z.eqb_neq. intros H0.
    assert (Z.testbit (Z.land m (2 ^ k)) k = false) as F by (rewrite H0; apply Z.bits_0).
    rewrite Z.land_spec, E, Z.pow2_bits_true in F by lia. discriminate.
  - apply Z.eqb_eq. apply Z.bits_inj'. intros j Hj.
    rewrite Z.land_spec, Z.bits_0, Z.pow2_bits_eqb by lia.
    destruct (Z.eqb_spec k j); [subst; now rewrite E | apply andb_false_r].
Qed.

Lemma contains_pow2 (p k : Z) : 0 <= k -> contains p (2 ^ k) = Z.testbit p k.
Proof.
  intros Hk. unfold contains. destruct (Z.testbit p k) eqn:E.
  - apply Z.eqb_eq. apply Z.bits_inj'. intros j Hj.
    rewrite Z.land_spec, Z.pow2_bits_eqb by lia.
    destruct (Z.eqb_spec k j); [subst; now rewrite E | apply andb_false_r].
  - apply Z.eqb_neq. intros H.
    assert (Z.testbit (Z.land p (2 ^ k)) k = true) as F
      by (rewrite H; now apply Z.pow2_bits_true).
    rewrite Z.land_spec, E in F. discriminate.
Qed.

Lemma testbit_mode_bit_step (m k p j : Z) : 0 <= k -> 0 <= j ->
  Z.testbit (mode_bit_step m k p) j = Z.testbit p j || (Z.testbit m k && Z.eqb k j).
Proof.
  intros Hk Hj. unfold mode_bit_step, permission_or.
  rewrite land_pow2_eqb_0 by lia.
  destruct (Z.testbit m k); simpl.
  - rewrite Z.lor_spec, Z.pow2_bits_eqb by lia. reflexivity.
  - now rewrite orb_false_r.
Qed.

Lemma mode_to_permission_steps (m : Z) :
  mode_to_permission m =
  mode_bit_step m 0 (mode_bit_step m 1 (mode_bit_step m 2 (mode_bit_step m 3
    (mode_bit_step m 4 (mode_bit_step m 5 (mode_bit_step m 6 (mode_bit_step m 7
      (mode_bit_step m 8 permission_none)))))))).
Proof. reflexivity. Qed.

Lemma mode_to_permission_bit (m k : Z) : 0 <= k <= 8 ->
  contains (mode_to_permission m) (2 ^ k) = negb (Z.eqb (Z.land m (2 ^ k)) 0).
Proof.
  intros Hk.
  rewrite mode_to_permission_steps, contains_pow2, land_pow2_eqb_0, negb_involutive
    by lia.
  rewrite !testbit_mode_bit_step by lia. unfold permission_none. rewrite Z.bits_0.
  assert (k = 0 \/ k = 1 \/ k = 2 \/ k = 3 \/ k = 4 \/ k = 5 \/ k = 6 \/ k = 7 \/ k = 8)
    as Hc by lia.
  destruct Hc as [->|[->|[->|[->|[->|[->|[->|[->| ->]]]]]]]]; simpl;
    rewrite ?andb_false_r, ?andb_true_r, ?orb_false_r; reflexivity.
Qed.
End PermissionFacts.

Section PermissionTheorems.
Import DynamicConfigModel PermissionFacts.

(** C6: [set_mode(m)] followed by [mode()] gives [m] back on
    [PublisherDetails] and [SubscriberDetails], and [mode_to_permission(m)]
    contains each of the nine rwx flags exactly when its POSIX bit
    (0o400 ... 0o001) is set in [m]. *)
Theorem mode_roundtrip_and_posix_mapping
    (pd : PublisherDetails) (sd : SubscriberDetails) (m : Z) :
  PublisherDetails.mode (PublisherDetails.set_mode pd m) = m /\
  SubscriberDetails.mode (SubscriberDetails.set_mode sd m) = m /\
  Forall (fun fb => contains (mode_to_permission m) (fst fb)
                    = negb (Z.eqb (Z.land m (snd fb)) 0)) posix_flags.
Proof.
  split; [reflexivity|]. split; [reflexivity|].
  unfold posix_flags; repeat constructor; cbn [fst snd].
  - exact (mode_to_permission_bit m 8 ltac:(lia)).
  - exact (mode_to_permission_bit m 7 ltac:(lia)).
  - exact (mode_to_permission_bit m 6 ltac:(lia)).
  - exact (mode_to_permission_bit m 5 ltac:(lia)).
  - exact (mode_to_permission_bit m 4 ltac:(lia)).
  - exact (mode_to_permission_bit m 3 ltac:(lia)).
  - exact (mode_to_permission_bit m 2 ltac:(lia)).
  - exact (mode_to_permission_bit m 1 ltac:(lia)).
  - exact (mode_to_permission_bit m 0 ltac:(lia)).
Qed.
End PermissionTheorems.

Section FfiTheorems.
Import SampleMutFfi.
Context {U : Type}.

Section Payload.
Context (ipc_payload_mut_ptr : U -> Z) (local_number_of_elements : U -> Z).

Lemma payload_mut_run (m : Mem U) (handle payload_ptr number_of_elements h : Z)
    (c : iox2_sample_mut_t U) (u : U) :
  words m !! handle = Some h -> cells m !! h = Some c -> value c = Some u ->
  iox2_sample_mut_payload_mut U ipc_payload_mut_ptr local_number_of_elements
    handle payload_ptr number_of_elements m
  = Done (tt, {| cells := cells m;
                 words := payload_outputs ipc_payload_mut_ptr local_number_of_elements
                            m u payload_ptr number_of_elements |}).
Proof.
  intros Hw Hc Hv.
  unfold iox2_sample_mut_payload_mut, bind, read_word, read_cell, as_mut, ret,
    write_word, payload_outputs.
  rewrite Hw. simpl. rewrite Hc, Hv. simpl.
  destruct (service_type c); simpl;
    destruct (Z.eqb number_of_elements 0); simpl; try reflexivity;
    rewrite Hc, Hv; reflexivity.
Qed.

Lemma payload_run (m : Mem U) (handle payload_ptr number_of_elements h : Z)
    (c : iox2_sample_mut_t U) (u : U) :
  words m !! handle = Some h -> cells m !! h = Some c -> value c = Some u ->
  iox2_sample_mut_payload U ipc_payload_mut_ptr local_number_of_elements
    handle payload_ptr number_of_elements m
  = Done (tt, {| cells := cells m;
                 words := payload_outputs ipc_payload_mut_ptr local_number_of_elements
                            m u payload_ptr number_of_elements |}).
Proof.
  intros Hw Hc Hv.
  unfold iox2_sample_mut_payload, bind, read_word, read_cell, as_mut, ret,
    write_word, payload_outputs.
  rewrite Hw. simpl. rewrite Hc, Hv. simpl.
  destruct (service_type c); simpl;
    destruct (Z.eqb number_of_elements 0); simpl; try reflexivity;
    rewrite Hc, Hv; reflexivity.
Qed.

(** C8: for a valid sample handle (its handle word points to a struct whose
    storage holds a sample), [iox2_sample_mut_payload_mut] and
    [iox2_sample_mut_payload] end in the same memory whether the struct is
    tagged [IPC] or [LOCAL]: the same payload pointer (read through the
    [ipc] member) and the same element count (read through the [local]
    member) are written to the out-parameters. *)
Theorem payload_accessors_same_for_ipc_and_local
    (m : Mem U) (handle payload_ptr number_of_elements h : Z)
    (c : iox2_sample_mut_t U) (u : U) :
  words m !! handle = Some h -> cells m !! h = Some c -> value c = Some u ->
  forall t : iox2_service_type_e,
    let mt := with_service_type m h c t in
    let out := Done (tt, {| cells := cells mt;
                            words := payload_outputs ipc_payload_mut_ptr local_number_of_elements m u payload_ptr
                                       number_of_elements |}) in
    iox2_sample_mut_payload_mut U ipc_payload_mut_ptr local_number_of_elements
      handle payload_ptr number_of_elements mt = out /\
    iox2_sample_mut_payload U ipc_payload_mut_ptr local_number_of_elements
      handle payload_ptr number_of_elements mt = out.
Proof.
  intros Hw Hc Hv t mt out.
  assert (Hc' : cells mt !! h = Some (set_service_type c t))
    by (apply lookup_insert_eq).
  assert (Hv' : value (set_service_type c t) = Some u) by exact Hv.
  split.
  - exact (payload_mut_run mt handle payload_ptr number_of_elements h _ u Hw Hc' Hv').
  - exact (payload_run mt handle payload_ptr number_of_elements h _ u Hw Hc' Hv').
Qed.
End Payload.

(** C7: on an initialised source struct and a distinct destination struct,
    [iox2_sample_mut_move] puts the source's sample into the destination
    storage, leaves the source storage [None], copies the service-type tag
    and the deleter to the destination, touches no other struct, and writes
    the destination's handle to [dest_handle_ptr]. *)
Theorem move_transfers_sample (m : Mem U) (src dst dest_handle_ptr : Z)
    (source dest : iox2_sample_mut_t U) (x : U) :
  src <> dst ->
  cells m !! src = Some source -> value source = Some x ->
  cells m !! dst = Some dest ->
  exists m',
    iox2_sample_mut_move U src dst dest_handle_ptr m = Done (tt, m') /\
    cells m' !! src = Some (set_value source None) /\
    cells m' !! dst = Some {| service_type := service_type source;
                              value := Some x;
                              deleter := deleter source |} /\
    (forall l, l <> src -> l <> dst -> cells m' !! l = cells m !! l) /\
    words m' = <[dest_handle_ptr := dst]> (words m).
Proof.
  intros Hne Hs Hv Hd.
  unfold iox2_sample_mut_move, take_value, init_value, bind, read_cell, write_cell,
    write_word, ret, panic.
  simpl. rewrite Hs, Hd. simpl.
  simplify_map_eq /=.
  eexists. split; [reflexivity|]. simpl.
  split; [|split; [|split]].
  - by simplify_map_eq.
  - by simplify_map_eq.
  - intros l Hl1 Hl2. by simplify_map_eq.
  - reflexivity.
Qed.
Section Send.
Context {SendError : Type}
  (port_send : iox2_service_type_e -> U -> sum Z SendError)
  (into_c_int : SendError -> Z).

(** C3: [iox2_sample_mut_send] on a struct whose storage is already empty
    (the sample was sent before) detects it and stops with the panic
    "Trying to send an already sent sample!" instead of releasing the
    sample a second time. On a struct holding a sample, the storage is set
    to [None] before the deleter runs and the port's terminal [send] is
    performed on the taken sample; with caller-provided storage (no-op
    deleter) a second send on the same handle then takes the first path. *)
Theorem send_empties_cell_and_detects_resend
    (m : Mem U) (sample_handle number_of_recipients : Z) (c : iox2_sample_mut_t U) :
  cells m !! sample_handle = Some c ->
  (value c = None ->
   iox2_sample_mut_send U SendError port_send into_c_int
     sample_handle number_of_recipients m
   = Panic "Trying to send an already sent sample!") /\
  (forall x, value c = Some x ->
   exists m',
     iox2_sample_mut_send U SendError port_send into_c_int
       sample_handle number_of_recipients m
     = Done (match port_send (service_type c) x with
             | inl _ => IOX2_OK
             | inr e => into_c_int e
             end, m') /\
     cells m' !! sample_handle
     = match deleter c with
       | NoOpDeleter => Some (set_value c None)
       | DeallocDeleter => None
       end /\
     (deleter c = NoOpDeleter ->
      forall number_of_recipients',
        iox2_sample_mut_send U SendError port_send into_c_int
          sample_handle number_of_recipients' m'
        = Panic "Trying to send an already sent sample!")).
Proof.
  intros Hc. split.
  - intros Hv.
    unfold iox2_sample_mut_send, take_value, bind, read_cell, write_cell, ret, panic.
    repeat (rewrite Hc || rewrite Hv || (progress simpl)). reflexivity.
  - intros x Hv.
    unfold iox2_sample_mut_send, take_value, bind, read_cell, write_cell, ret, panic.
    repeat (rewrite Hc || rewrite Hv || (progress simpl)).
    destruct (deleter c) eqn:Hd; simpl.
    + destruct (service_type c); simpl;
        destruct (port_send _ x) as [v|e]; simpl;
        try destruct (Z.eqb number_of_recipients 0); simpl;
        (eexists; split; [reflexivity|]); simpl;
        (split; [by simplify_map_eq|]);
        intros _ nr'; by simplify_map_eq.
    + destruct (service_type c); simpl;
        destruct (port_send _ x) as [v|e]; simpl;
        try destruct (Z.eqb number_of_recipients 0); simpl;
        (eexists; split; [reflexivity|]); simpl;
        (split; [by simplify_map_eq|]); discriminate.
Qed.
End Send.
End FfiTheorems.

Module SweepFacts.
Import DynamicConfigModel.

Lemma in_container_remove {A} (h : ContainerHandle) (c : Container A) e :
  In e (container_remove h c) <-> In e c /\ fst e <> h.
Proof.
  unfold container_remove. rewrite filter_In.
  split; intros [H1 H2]; split; auto.
  - apply negb_true_iff, Nat.eqb_neq in H2. exact H2.
  - apply negb_true_iff, Nat.eqb_neq. exact H2.
Qed.

Section Sweep.
Context {S : Type} (cb : S -> UniquePortId -> S * PortCleanupAction).
Context {A B : Type} (node_of : A -> NodeId) (port_of : A -> UniquePortId)
  (release : DynamicConfig -> ContainerHandle -> DynamicConfig)
  (get : DynamicConfig -> Container A) (other : DynamicConfig -> B).
Hypothesis get_release :
  forall dc h, get (release dc h) = container_remove h (get dc).
Hypothesis other_release : forall dc h, other (release dc h) = other dc.
Variable node_id : NodeId.

Lemma in_trace_port (snap : Container A) (trn : Trace) p a :
  map fst trn =
    map (fun e => port_of (snd e)) (List.filter (matching node_of node_id) snap) ->
  In (p, a) trn -> In p (map (fun e => port_of (snd e)) snap).
Proof.
  intros Hm Hin.
  assert (Hp : In p (map fst trn)) by (apply in_map_iff; exists (p, a); auto).
  rewrite Hm in Hp. apply in_map_iff in Hp as [e [<- He]].
  apply filter_In in He as [He _]. apply in_map_iff. eauto.
Qed.

Lemma sweep_spec (snap : Container A) :
  forall dc s tr,
    NoDup (map fst snap) ->
    NoDup (map (fun e => port_of (snd e)) snap) ->
    (forall e, In e (get dc) -> In (fst e) (map fst snap) -> In e snap) ->
    let '(dc', s', tr') := sweep cb node_of port_of release node_id snap dc s tr in
    other dc' = other dc /\
    exists trn, tr' = tr ++ trn /\
      map fst trn =
        map (fun e => port_of (snd e)) (List.filter (matching node_of node_id) snap) /\
      forall e, In e (get dc') <->
        In e (get dc) /\
        ~ (In e snap /\ node_of (snd e) = node_id /\ In (port_of (snd e), RemovePort) trn).
Proof.
  induction snap as [|[h x] rest IH]; intros dc s tr Hh Hp Hinv; simpl.
  - split; [reflexivity|]. exists []. rewrite app_nil_r.
    split; [reflexivity|]. split; [reflexivity|]. intros e. tauto.
  - inversion Hh as [|? ? Hh_notin Hh_rest]; subst.
    inversion Hp as [|? ? Hp_notin Hp_rest]; subst.
    assert (Hh_notin' : ~ In h (map fst rest))
      by (intros Hi; apply Hh_notin; apply list_elem_of_In; exact Hi).
    assert (Hp_notin' : ~ In (port_of x) (map (fun e => port_of (snd e)) rest))
      by (intros Hi; apply Hp_notin; apply list_elem_of_In; exact Hi).
    clear Hh_notin Hp_notin. rename Hh_notin' into Hh_notin, Hp_notin' into Hp_notin.
    destruct (Z.eqb_spec (node_of x) node_id) as [Hx|Hx].
    + destruct (cb s (port_of x)) as [s1 a] eqn:Hcb.
      set (dc1 := if PortCleanupAction_eqb a RemovePort then release dc h else dc).
      assert (Hdc1 : forall e, In e (get dc1) <->
                     In e (get dc) /\ (a = RemovePort -> fst e <> h)).
      { intros e. unfold dc1. destruct a; simpl.
        - rewrite get_release, in_container_remove. intuition.
        - intuition discriminate. }
      assert (Hinv1 : forall e, In e (get dc1) -> In (fst e) (map fst rest) -> In e rest).
      { intros e He Hf. apply Hdc1 in He as [He _].
        destruct (Hinv e He (or_intror Hf)) as [<-|Hr]; [|exact Hr].
        simpl in Hf. contradiction. }
      specialize (IH dc1 s1 (tr ++ [(port_of x, a)]) Hh_rest Hp_rest Hinv1).
      destruct (sweep cb node_of port_of release node_id rest dc1 s1
                  (tr ++ [(port_of x, a)])) as [[dc' s'] tr'].
      destruct IH as [Hoth [trn' [Htr [Hmap Hiff]]]].
      split.
      { rewrite Hoth. unfold dc1. destruct (PortCleanupAction_eqb a RemovePort);
          [apply other_release | reflexivity]. }
      exists ((port_of x, a) :: trn'). split; [rewrite Htr, <- app_assoc; reflexivity|].
      split.
      { unfold matching at 1. simpl. rewrite Hx, Z.eqb_refl. simpl. f_equal. exact Hmap. }
      intros e. rewrite Hiff, Hdc1. split.
      * intros [[He Ha] Hn]. split; [exact He|].
        intros [Hin [Hnode Htrn]]. destruct Hin as [<-|Hin].
        -- destruct Htrn as [Heq|Htrn].
           ++ injection Heq as Ha'. subst a. apply (Ha eq_refl). reflexivity.
           ++ apply Hp_notin. exact (in_trace_port rest trn' _ _ Hmap Htrn).
        -- destruct Htrn as [Heq|Htrn].
           ++ injection Heq as Hpe Ha'. apply Hp_notin. rewrite Hpe.
              apply in_map_iff. eauto.
           ++ apply Hn. auto.
      * intros [He Hn]. split; [split; [exact He|]|].
        -- intros -> Hfe.
           destruct (Hinv e He) as [<-|Hr].
           ++ rewrite Hfe. left. reflexivity.
           ++ apply Hn. split; [left; reflexivity|]. split; [exact Hx|]. left. reflexivity.
           ++ apply Hh_notin. rewrite <- Hfe. apply in_map_iff. eauto.
        -- intros [Hin [Hnode Htrn]]. apply Hn. split; [right; exact Hin|].
           split; [exact Hnode|]. right. exact Htrn.
    + assert (Hinv1 : forall e, In e (get dc) -> In (fst e) (map fst rest) -> In e rest).
      { intros e He Hf.
        destruct (Hinv e He (or_intror Hf)) as [<-|Hr]; [|exact Hr].
        simpl in Hf. contradiction. }
      specialize (IH dc s tr Hh_rest Hp_rest Hinv1).
      destruct (sweep cb node_of port_of release node_id rest dc s tr)
        as [[dc' s'] tr'].
      destruct IH as [Hoth [trn' [Htr [Hmap Hiff]]]].
      split; [exact Hoth|]. exists trn'. split; [exact Htr|].
      split.
      { unfold matching at 1. simpl.
        destruct (Z.eqb_spec (node_of x) node_id); [contradiction|exact Hmap]. }
      intros e. rewrite Hiff. split.
      * intros [He Hn]. split; [exact He|].
        intros [[<-|Hin] [Hnode Htrn]]; [apply Hx; exact Hnode|]. apply Hn. auto.
      * intros [He Hn]. split; [exact He|].
        intros [Hin [Hnode Htrn]]. apply Hn. auto.
Qed.
End Sweep.
End SweepFacts.

Section RemoveDeadNodeTheorem.
Import DynamicConfigModel SweepFacts.
Context {S : Type} (cb : S -> UniquePortId -> S * PortCleanupAction).

Lemma NoDup_map_compose {X Y Z' : Type} (f : X -> Y) (g : Y -> Z') (l : list X) :
  (forall a b, g a = g b -> a = b) ->
  NoDup (map f l) -> NoDup (map (fun x => g (f x)) l).
Proof.
  intros Hg. induction l as [|x l IH]; simpl; intros Hnd.
  - constructor.
  - inversion Hnd as [|? ? Hn Hr]; subst. constructor; [|auto].
    intros Hin. apply Hn. apply list_elem_of_In in Hin. apply list_elem_of_In.
    apply in_map_iff in Hin as [y [Hy Hin]]. apply Hg in Hy.
    apply in_map_iff. eauto.
Qed.

(** C4: [remove_dead_node_id(node_id, cb)] calls the cleanup callback
    exactly once for every registered endpoint of [node_id], all publishers
    (in container order) before any subscriber, and for no endpoint of
    another node; afterwards an entry is gone from its container exactly
    when it belongs to [node_id] and the callback answered [RemovePort] for
    it, so endpoints of other nodes stay registered. Container handles and
    port ids are unique, as the container and the id generators ensure. *)
Theorem remove_dead_node_id_spec (dc : DynamicConfig) (node_id : NodeId) (s : S) :
  NoDup (map fst (publishers dc)) ->
  NoDup (map (fun e => publisher_id (snd e)) (publishers dc)) ->
  NoDup (map fst (subscribers dc)) ->
  NoDup (map (fun e => subscriber_id (snd e)) (subscribers dc)) ->
  let '(dc', _, tr) := remove_dead_node_id cb dc node_id s in
  map fst tr =
    map (fun e => pub_port (snd e))
      (List.filter (fun e => Z.eqb (pub_node_id (snd e)) node_id) (publishers dc)) ++
    map (fun e => sub_port (snd e))
      (List.filter (fun e => Z.eqb (sub_node_id (snd e)) node_id) (subscribers dc)) /\
  (forall e, In e (publishers dc') <->
     In e (publishers dc) /\
     ~ (pub_node_id (snd e) = node_id /\ In (pub_port (snd e), RemovePort) tr)) /\
  (forall e, In e (subscribers dc') <->
     In e (subscribers dc) /\
     ~ (sub_node_id (snd e) = node_id /\ In (sub_port (snd e), RemovePort) tr)).
Proof.
  intros Hph Hpi Hsh Hsi.
  assert (Hpp : NoDup (map (fun e => pub_port (snd e)) (publishers dc))).
  { apply (NoDup_map_compose (fun e => publisher_id (snd e)) Publisher);
      [intros a b H; injection H; auto | exact Hpi]. }
  assert (Hsp : NoDup (map (fun e => sub_port (snd e)) (subscribers dc))).
  { apply (NoDup_map_compose (fun e => subscriber_id (snd e)) Subscriber);
      [intros a b H; injection H; auto | exact Hsi]. }
  unfold remove_dead_node_id.
  pose proof (sweep_spec cb pub_node_id pub_port release_publisher_handle publishers
                subscribers (fun _ _ => eq_refl) (fun _ _ => eq_refl) node_id
                (publishers dc) dc s [] Hph Hpp (fun e He _ => He)) as P.
  destruct (sweep cb pub_node_id pub_port release_publisher_handle node_id
              (publishers dc) dc s []) as [[dc1 s1] tr1].
  destruct P as [Hsub1 [trn1 [Htr1 [Hmap1 Hiff1]]]]. simpl in Htr1. subst tr1.
  cbv beta iota. rewrite Hsub1.
  pose proof (sweep_spec cb sub_node_id sub_port release_subscriber_handle subscribers
                publishers (fun _ _ => eq_refl) (fun _ _ => eq_refl) node_id
                (subscribers dc) dc1 s1 trn1 Hsh Hsp) as Q.
  rewrite Hsub1 in Q. specialize (Q (fun e He _ => He)).
  destruct (sweep cb sub_node_id sub_port release_subscriber_handle node_id
              (subscribers dc) dc1 s1 trn1) as [[dc2 s2] tr2].
  destruct Q as [Hpub2 [trn2 [Htr2 [Hmap2 Hiff2]]]]. subst tr2.
  unfold matching in Hmap1, Hmap2.
  split; [rewrite map_app, Hmap1, Hmap2; reflexivity|]. split.
  - intros e. rewrite Hpub2, Hiff1. split.
    + intros [He Hn]. split; [exact He|]. intros [Hnode Hin].
      apply in_app_iff in Hin as [Hin|Hin]; [apply Hn; auto|].
      pose proof (in_trace_port sub_node_id sub_port node_id _ _ _ _ Hmap2 Hin) as Hp.
      apply in_map_iff in Hp as [e' [He' _]]. discriminate He'.
    + intros [He Hn]. split; [exact He|]. intros [_ [Hnode Hin]].
      apply Hn. split; [exact Hnode|]. apply in_app_iff. auto.
  - intros e. rewrite Hiff2. split.
    + intros [He Hn]. split; [exact He|]. intros [Hnode Hin].
      apply in_app_iff in Hin as [Hin|Hin]; [|apply Hn; auto].
      pose proof (in_trace_port pub_node_id pub_port node_id _ _ _ _ Hmap1 Hin) as Hp.
      apply in_map_iff in Hp as [e' [He' _]]. discriminate He'.
    + intros [He Hn]. split; [exact He|]. intros [_ [Hnode Hin]].
      apply Hn. split; [exact Hnode|]. apply in_app_iff. auto.
Qed.
End RemoveDeadNodeTheorem.

Module PubSubFacts.
Import PubSub.
Local Open Scope nat_scope.

Lemma loan_uninit_ok (st : State) :
  loan_counter st <> max_loaned_samples st ->
  loan_uninit st =
    inl (update st (S (loan_counter st)) (S (next_slot st)) (segment st)
           (subscriber_ports st),
         {| uninit_slot := next_slot st; uninit_len := 1 |}).
Proof.
  intros H. unfold loan_uninit, loan_sample. apply Nat.eqb_neq in H. rewrite H.
  reflexivity.
Qed.

Lemma deliver_lookup (safe : bool) (slot : Slot) (subs : list SubscriberPort) (i : nat) :
  fst (deliver safe slot subs) !! i = (fun sub => fst (enqueue safe slot sub)) <$> subs !! i.
Proof.
  revert i. induction subs as [|sub rest IH]; intros i; simpl; [reflexivity|].
  destruct (enqueue safe slot sub) as [sub' d] eqn:E.
  specialize (IH (Nat.pred i)).
  destruct (deliver safe slot rest) as [rest' n] eqn:D.
  destruct i as [|i]; simpl in *; [rewrite E; reflexivity | exact IH].
Qed.

Lemma send_fields (s : SampleMut) (st : State) :
  let st' := fst (send s st) in
  loan_counter st' = Nat.pred (loan_counter st) /\
  max_loaned_samples st' = max_loaned_samples st /\
  max_slice_len st' = max_slice_len st /\
  enable_safe_overflow st' = enable_safe_overflow st /\
  next_slot st' = next_slot st /\
  segment st' = segment st /\
  subscriber_ports st' =
    fst (deliver (enable_safe_overflow st) (init_slot s) (subscriber_ports st)).
Proof.
  unfold send. simpl.
  destruct (deliver (enable_safe_overflow st) (init_slot s) (subscriber_ports st)).
  simpl. repeat split.
Qed.

Lemma payloads_insert_fresh (seg : gmap Slot (list Z)) (n : Slot) (x : list Z)
    (q : list Slot) :
  Forall (fun s => s < n) q ->
  map (fun slot => from_option id [] (<[n := x]> seg !! slot)) q =
  map (fun slot => from_option id [] (seg !! slot)) q.
Proof.
  induction 1 as [|s q Hs Hq IH]; simpl; [reflexivity|].
  rewrite lookup_insert_ne by lia. f_equal. exact IH.
Qed.

(** One [loan_uninit(); write_payload(v); send()] seen from subscriber [i]. *)
Lemma publish_step (st : State) (i : nat) (sub : SubscriberPort) (v : Z) :
  loan_counter st < max_loaned_samples st ->
  subscriber_ports st !! i = Some sub ->
  Forall (fun s => s < next_slot st) (queue sub) ->
  exists st' sub',
    publish v st = inl st' /\
    loan_counter st' = loan_counter st /\
    max_loaned_samples st' = max_loaned_samples st /\
    subscriber_ports st' !! i = Some sub' /\
    Forall (fun s => s < next_slot st') (queue sub') /\
    buffer_size sub' = buffer_size sub /\
    queued_payloads st' sub' `sublist_of` queued_payloads st sub ++ [[v]] /\
    (length (queue sub) < buffer_size sub ->
     queued_payloads st' sub' = queued_payloads st sub ++ [[v]] /\
     length (queue sub') = S (length (queue sub))).
Proof.
  intros Hc Hi Hf.
  unfold publish. rewrite loan_uninit_ok by lia. cbn [write_payload].
  set (st2 := update _ _ _ _ _).
  pose proof (send_fields {| init_slot := next_slot st |} st2) as F.
  destruct F as [F1 [F2 [_ [F4 [F5 [F6 F7]]]]]].
  set (sub' := fst (enqueue (enable_safe_overflow st) (next_slot st) sub)).
  exists (fst (send {| init_slot := next_slot st |} st2)), sub'.
  assert (Hlk : subscriber_ports (fst (send {| init_slot := next_slot st |} st2)) !! i
                = Some sub').
  { rewrite F7, deliver_lookup. simpl. rewrite Hi. reflexivity. }
  assert (Hseg : segment (fst (send {| init_slot := next_slot st |} st2))
                 = <[next_slot st := [v]]> (segment st)) by (rewrite F6; reflexivity).
  assert (Hnext : next_slot (fst (send {| init_slot := next_slot st |} st2))
                  = S (next_slot st)) by (rewrite F5; reflexivity).
  unfold queued_payloads. rewrite Hseg, Hnext.
  split; [reflexivity|]. split; [rewrite F1; reflexivity|].
  split; [rewrite F2; reflexivity|]. split; [exact Hlk|].
  unfold sub', enqueue.
  destruct (Nat.ltb_spec (length (queue sub)) (buffer_size sub)) as [Hlt|Hge]; simpl.
  - rewrite map_app, payloads_insert_fresh by exact Hf. simpl.
    rewrite lookup_insert_eq. simpl.
    split; [apply Forall_app; split;
            [eapply Forall_impl; [exact Hf | intros ? Hx; cbv beta in Hx; lia] | constructor; [lia|constructor]]|].
    split; [reflexivity|]. split; [reflexivity|].
    intros _. split; [reflexivity|]. rewrite length_app. simpl. lia.
  - destruct (enable_safe_overflow st); simpl.
    + assert (Hft : Forall (fun s => s < next_slot st) (tail (queue sub)))
        by (destruct (queue sub); [constructor | inversion Hf; assumption]).
      rewrite map_app, payloads_insert_fresh by exact Hft. simpl.
      rewrite lookup_insert_eq. simpl.
      split; [apply Forall_app; split;
              [eapply Forall_impl; [exact Hft | intros ? Hx; cbv beta in Hx; lia] | constructor; [lia|constructor]]|].
      split; [reflexivity|]. split; [|lia].
      apply sublist_app; [|reflexivity].
      destruct (queue sub) as [|s q]; simpl; [reflexivity|].
      apply sublist_cons. reflexivity.
    + rewrite payloads_insert_fresh by exact Hf.
      split; [eapply Forall_impl; [exact Hf | intros ? Hx; cbv beta in Hx; lia]|].
      split; [reflexivity|]. split; [|lia].
      apply sublist_inserts_r. reflexivity.
Qed.
(** A run of publishes seen from subscriber [i]. *)
Lemma publish_all_spec (vs : list Z) (st : State) (i : nat) (sub : SubscriberPort) :
  loan_counter st < max_loaned_samples st ->
  subscriber_ports st !! i = Some sub ->
  Forall (fun s => s < next_slot st) (queue sub) ->
  exists st' sub',
    publish_all vs st = inl st' /\
    subscriber_ports st' !! i = Some sub' /\
    queued_payloads st' sub' `sublist_of` queued_payloads st sub ++ map (fun v => [v]) vs /\
    (length (queue sub) + length vs <= buffer_size sub ->
     queued_payloads st' sub' = queued_payloads st sub ++ map (fun v => [v]) vs).
Proof.
  revert st sub. induction vs as [|v vs IH]; intros st sub Hc Hi Hf.
  - exists st, sub. simpl. rewrite app_nil_r.
    split; [reflexivity|]. split; [exact Hi|]. split; [reflexivity|]. reflexivity.
  - destruct (publish_step st i sub v Hc Hi Hf)
      as (st1 & sub1 & Hp & Hc1 & Hm1 & Hi1 & Hf1 & Hb1 & Hsub1 & Hex1).
    destruct (IH st1 sub1) as (st' & sub' & Hp' & Hi' & Hsub' & Hex');
      [lia | exact Hi1 | exact Hf1 |].
    exists st', sub'. simpl. rewrite Hp.
    split; [exact Hp'|]. split; [exact Hi'|]. split.
    + etransitivity; [exact Hsub'|].
      change ([v] :: map (fun v => [v]) vs) with ([[v]] ++ map (fun v => [v]) vs).
      rewrite app_assoc. apply sublist_app; [exact Hsub1 | reflexivity].
    + intros Hlen. simpl in Hlen.
      destruct Hex1 as [Heq1 Hl1]; [lia|].
      rewrite Hex' by (rewrite Hl1, Hb1; lia).
      rewrite Heq1, <- app_assoc. reflexivity.
Qed.

(** Receiving [n] times from subscriber [i] reads the front of its queue. *)
Lemma drain_spec (i n : nat) (st : State) (sub : SubscriberPort) :
  subscriber_ports st !! i = Some sub ->
  drain i n st = take n (queued_payloads st sub).
Proof.
  revert st sub. induction n as [|n IH]; intros st sub Hi; simpl; [reflexivity|].
  unfold receive, queued_payloads. rewrite Hi.
  destruct (queue sub) as [|slot rest] eqn:Hq; simpl; [reflexivity|].
  f_equal.
  set (sub2 := {| buffer_size := buffer_size sub; queue := rest |}).
  rewrite (IH _ sub2).
  - reflexivity.
  - simpl. apply list_lookup_insert_eq. eapply lookup_lt_Some. exact Hi.
Qed.
Lemma queued_payloads_ext (st st' : State) (sub : SubscriberPort) :
  (forall s, s ∈ queue sub -> segment st' !! s = segment st !! s) ->
  queued_payloads st' sub = queued_payloads st sub.
Proof.
  intros H. unfold queued_payloads. apply map_ext_in. intros s Hs.
  rewrite H; [reflexivity|]. apply list_elem_of_In. exact Hs.
Qed.

Lemma queued_payloads_seg (st st' : State) (sub : SubscriberPort) :
  segment st' = segment st -> queued_payloads st' sub = queued_payloads st sub.
Proof. intros H. apply queued_payloads_ext. intros s _. rewrite H. reflexivity. Qed.

(** One slot enqueued into a subscriber's queue, seen through the payloads. *)
Lemma enqueue_facts (safe : bool) (s : Slot) (sub : SubscriberPort) (st : State)
    (sent : list Z) (v : Z) :
  segment st !! s = Some [v] ->
  queued_payloads st sub `sublist_of` map (fun v => [v]) sent ->
  (length sent <= buffer_size sub ->
   queued_payloads st sub = map (fun v => [v]) sent /\ length (queue sub) = length sent) ->
  let sub' := fst (enqueue safe s sub) in
  buffer_size sub' = buffer_size sub /\
  (forall x, x ∈ queue sub' -> x ∈ queue sub \/ x = s) /\
  queued_payloads st sub' `sublist_of` map (fun v => [v]) (sent ++ [v]) /\
  (length (sent ++ [v]) <= buffer_size sub ->
   queued_payloads st sub' = map (fun v => [v]) (sent ++ [v]) /\
   length (queue sub') = length (sent ++ [v])).
Proof.
  intros Hs Hsub Hex sub'. unfold sub', enqueue. unfold queued_payloads in *.
  rewrite map_app, length_app. simpl.
  destruct (Nat.ltb_spec (length (queue sub)) (buffer_size sub)) as [Hlt|Hge]; simpl.
  - rewrite map_app. simpl. rewrite Hs. simpl.
    split; [reflexivity|]. split.
    + intros x Hx. apply elem_of_app in Hx. destruct Hx as [Hx|Hx]; [left; exact Hx|].
      right. apply list_elem_of_singleton in Hx. exact Hx.
    + split; [apply sublist_app; [exact Hsub | reflexivity]|].
      intros Hl. destruct Hex as [E L]; [lia|]. rewrite E, length_app, L. simpl.
      split; reflexivity.
  - destruct safe; simpl.
    + rewrite map_app. simpl. rewrite Hs. simpl.
      split; [reflexivity|]. split.
      * intros x Hx. apply elem_of_app in Hx. destruct Hx as [Hx|Hx].
        -- left. destruct (queue sub) as [|a q]; simpl in Hx; [inversion Hx|].
           apply elem_of_cons. right. exact Hx.
        -- right. apply list_elem_of_singleton in Hx. exact Hx.
      * split.
        -- apply sublist_app; [|reflexivity].
           destruct (queue sub) as [|a q]; simpl in *; [exact Hsub|].
           etransitivity; [apply sublist_cons; reflexivity | exact Hsub].
        -- intros Hl. exfalso. destruct Hex as [_ L]; [lia|]. lia.
    + split; [reflexivity|]. split; [intros x Hx; left; exact Hx|]. split.
      * apply sublist_inserts_r. exact Hsub.
      * intros Hl. exfalso. destruct Hex as [_ L]; [lia|]. lia.
Qed.

Lemma loan_uninit_inl (st st1 : State) (s : SampleMutUninit) :
  loan_uninit st = inl (st1, s) ->
  segment st1 = segment st /\ next_slot st1 = S (next_slot st) /\
  subscriber_ports st1 = subscriber_ports st /\
  s = {| uninit_slot := next_slot st; uninit_len := 1 |}.
Proof.
  unfold loan_uninit, loan_sample. destruct (Nat.eqb _ _); [discriminate|].
  intros H. injection H as <- <-. repeat split.
Qed.

Lemma publish_inl (v : Z) (st st' : State) :
  publish v st = inl st' ->
  segment st' = <[next_slot st := [v]]> (segment st) /\
  next_slot st' = S (next_slot st) /\
  exists b, subscriber_ports st' = fst (deliver b (next_slot st) (subscriber_ports st)).
Proof.
  unfold publish. destruct (loan_uninit st) as [[st1 s]|e] eqn:E; [|discriminate].
  apply loan_uninit_inl in E as (E1 & E2 & E3 & ->). cbn [write_payload].
  intros H. injection H as <-. unfold send. simpl.
  destruct (deliver _ _ _) as [subs' n] eqn:D. simpl. rewrite E1, E2.
  split; [reflexivity|]. split; [reflexivity|].
  exists (enable_safe_overflow st1). rewrite <- E3, D. reflexivity.
Qed.

Lemma drop_handle_fields (h : Handle) (st : State) :
  segment (drop_handle h st) = delete (handle_slot h) (segment st) /\
  next_slot (drop_handle h st) = next_slot st /\
  subscriber_ports (drop_handle h st) = subscriber_ports st.
Proof. destruct h; repeat split. Qed.

Lemma deliver_at (b : bool) (slot : Slot) (subs : list SubscriberPort) (i : nat)
    (sub : SubscriberPort) :
  subs !! i = Some sub -> fst (deliver b slot subs) !! i = Some (fst (enqueue b slot sub)).
Proof. intros Hi. rewrite deliver_lookup, Hi. reflexivity. Qed.

Lemma env_clear_lookup (env : list (option Handle)) (k j : nat) (h : Handle) :
  <[k := None]> env !! j = Some (Some h) -> k <> j /\ env !! j = Some (Some h).
Proof.
  intros H. apply list_lookup_insert_Some in H.
  destruct H as [(_ & E & _)|H]; [discriminate|exact H].
Qed.

Lemma env_relabel_lookup (env : list (option Handle)) (k j : nat) (h0 h1 h : Handle) :
  env !! k = Some (Some h0) -> handle_slot h1 = handle_slot h0 ->
  <[k := Some h1]> env !! j = Some (Some h) ->
  exists h', env !! j = Some (Some h') /\ handle_slot h' = handle_slot h.
Proof.
  intros Hk Hs H. apply list_lookup_insert_Some in H.
  destruct H as [(<- & E & _)|(_ & H)].
  - injection E as <-. exists h0. split; [exact Hk | symmetry; exact Hs].
  - exists h. split; [exact H | reflexivity].
Qed.

Lemma env_push_lookup (env : list (option Handle)) (h0 h : Handle) (j : nat) :
  (env ++ [Some h0]) !! j = Some (Some h) ->
  env !! j = Some (Some h) \/ (j = length env /\ h = h0).
Proof.
  intros H. apply lookup_app_Some in H. destruct H as [H|(Hl & H)]; [left; exact H|].
  right. apply list_lookup_singleton_Some in H. destruct H as [Hj E].
  injection E as <-. split; [lia | reflexivity].
Qed.

Section Scripts.
Variables (i B : nat).

Lemma script_inv_start (st : State) (sub : SubscriberPort) :
  subscriber_ports st !! i = Some sub -> queue sub = [] -> buffer_size sub = B ->
  script_inv i B [] [] st sub [].
Proof.
  intros Hi Hq Hb. unfold script_inv, queued_payloads. rewrite Hq. simpl.
  split; [exact Hi|]. split; [exact Hb|]. split; [reflexivity|].
  split; [intros k s H; rewrite lookup_nil in H; discriminate|].
  split; [intros k h H; rewrite lookup_nil in H; discriminate|].
  split; [intros k j h1 h2 H; rewrite lookup_nil in H; discriminate|].
  split; [constructor|]. split; [reflexivity|]. intros _. split; reflexivity.
Qed.

Lemma script_inv_loan (env : list (option Handle)) (w : list (option Z)) (st st1 : State)
    (s : SampleMutUninit) (sub : SubscriberPort) (sent : list Z) :
  loan_uninit st = inl (st1, s) ->
  script_inv i B env w st sub sent ->
  script_inv i B (env ++ [Some (HUninit s)]) (w ++ [None]) st1 sub sent.
Proof.
  intros E (Hi & Hb & Hlen & Hval & Hown & Hdist & Hf & Hsub & Hex).
  apply loan_uninit_inl in E as (E1 & E2 & E3 & ->).
  unfold script_inv. rewrite (queued_payloads_seg st st1 sub E1), E1, E2, E3.
  split; [exact Hi|]. split; [exact Hb|].
  split; [rewrite !length_app, Hlen; reflexivity|].
  split.
  { intros k s2 Hk. apply env_push_lookup in Hk.
    destruct Hk as [Hk|(_ & E)]; [|discriminate].
    destruct (Hval k s2 Hk) as (v & Hw & Hs). exists v. split; [|exact Hs].
    rewrite lookup_app_l; [exact Hw|]. rewrite <- Hlen. eapply lookup_lt_Some. exact Hk. }
  split.
  { intros k h Hk. apply env_push_lookup in Hk.
    destruct Hk as [Hk|(_ & ->)].
    - destruct (Hown k h Hk) as [Hl Hq]. split; [lia | exact Hq].
    - simpl. split; [lia|]. intros Hin. rewrite Forall_forall in Hf.
      specialize (Hf _ Hin). lia. }
  split.
  { intros k j h1 h2 Hk Hj Hne.
    apply env_push_lookup in Hk. apply env_push_lookup in Hj.
    destruct Hk as [Hk|(Hk & ->)], Hj as [Hj|(Hj & ->)].
    - exact (Hdist k j h1 h2 Hk Hj Hne).
    - simpl. pose proof (proj1 (Hown k h1 Hk)). lia.
    - simpl. pose proof (proj1 (Hown j h2 Hj)). lia.
    - lia. }
  split; [eapply Forall_impl; [exact Hf | intros x Hx; cbv beta in Hx; lia]|].
  split; [exact Hsub | exact Hex].
Qed.

Lemma script_inv_write (env : list (option Handle)) (w : list (option Z)) (st : State)
    (k : nat) (s : SampleMutUninit) (v : Z) (sub : SubscriberPort) (sent : list Z) :
  env !! k = Some (Some (HUninit s)) ->
  script_inv i B env w st sub sent ->
  script_inv i B (<[k := Some (HInit {| init_slot := uninit_slot s |})]> env)
    (<[k := Some v]> w) (fst (write_payload s v st)) sub sent.
Proof.
  intros Hk (Hi & Hb & Hlen & Hval & Hown & Hdist & Hf & Hsub & Hex).
  assert (Hq : queued_payloads (fst (write_payload s v st)) sub = queued_payloads st sub).
  { apply queued_payloads_ext. intros x Hx. simpl. rewrite lookup_insert_ne; [reflexivity|].
    intros Heq. apply (proj2 (Hown k _ Hk)). simpl. rewrite Heq. exact Hx. }
  unfold script_inv. rewrite Hq. simpl.
  split; [exact Hi|]. split; [exact Hb|].
  split; [rewrite !length_insert; exact Hlen|].
  split.
  { intros j s2 Hj. apply list_lookup_insert_Some in Hj.
    destruct Hj as [(<- & E & Hl)|(Hne & Hj)].
    - injection E as <-. exists v. simpl.
      rewrite list_lookup_insert_eq by lia. rewrite lookup_insert_eq.
      split; reflexivity.
    - destruct (Hval j s2 Hj) as (v2 & Hw & Hs). exists v2.
      rewrite list_lookup_insert_ne by exact Hne.
      rewrite lookup_insert_ne; [split; assumption|].
      exact (Hdist k j _ _ Hk Hj Hne). }
  split.
  { intros j h Hj.
    destruct (env_relabel_lookup env k j _ (HInit {| init_slot := uninit_slot s |}) h Hk eq_refl Hj) as (h' & Hj' & <-).
    exact (Hown j h' Hj'). }
  split.
  { intros j1 j2 h1 h2 Hj1 Hj2 Hne.
    destruct (env_relabel_lookup env k j1 _ (HInit {| init_slot := uninit_slot s |}) h1 Hk eq_refl Hj1) as (h1' & Hj1' & <-).
    destruct (env_relabel_lookup env k j2 _ (HInit {| init_slot := uninit_slot s |}) h2 Hk eq_refl Hj2) as (h2' & Hj2' & <-).
    exact (Hdist j1 j2 h1' h2' Hj1' Hj2' Hne). }
  split; [exact Hf|]. split; [exact Hsub | exact Hex].
Qed.

Lemma script_inv_send (env : list (option Handle)) (w : list (option Z)) (st : State)
    (k : nat) (s : SampleMut) (v : Z) (sub : SubscriberPort) (sent : list Z) :
  env !! k = Some (Some (HInit s)) -> w !! k = Some (Some v) ->
  script_inv i B env w st sub sent ->
  exists sub',
    script_inv i B (<[k := None]> env) (<[k := None]> w) (fst (send s st)) sub' (sent ++ [v]).
Proof.
  intros Hk Hwk (Hi & Hb & Hlen & Hval & Hown & Hdist & Hf & Hsub & Hex).
  destruct (Hval k s Hk) as (v' & Hw' & Hs). rewrite Hwk in Hw'.
  injection Hw' as <-.
  destruct (send_fields s st) as (_ & _ & _ & _ & F5 & F6 & F7).
  set (st' := fst (send s st)) in *.
  rewrite <- (queued_payloads_seg st st' sub F6) in Hsub, Hex.
  rewrite <- F6 in Hs. rewrite <- Hb in Hex.
  destruct (enqueue_facts (enable_safe_overflow st) (init_slot s) sub st' sent v Hs Hsub Hex)
    as (EF1 & EF2 & EF3 & EF4).
  exists (fst (enqueue (enable_safe_overflow st) (init_slot s) sub)).
  unfold script_inv.
  split; [rewrite F7; exact (deliver_at _ _ _ i sub Hi)|].
  split; [rewrite EF1; exact Hb|].
  split; [rewrite !length_insert; exact Hlen|].
  split.
  { intros j s2 Hj. apply env_clear_lookup in Hj as (Hne & Hj).
    destruct (Hval j s2 Hj) as (v2 & Hw2 & Hs2). exists v2.
    rewrite list_lookup_insert_ne by exact Hne. rewrite F6. split; assumption. }
  split.
  { intros j h Hj. apply env_clear_lookup in Hj as (Hne & Hj).
    destruct (Hown j h Hj) as [Hl Hnq]. rewrite F5. split; [exact Hl|].
    intros Hin. destruct (EF2 _ Hin) as [Hq|Heq]; [exact (Hnq Hq)|].
    exact (Hdist j k h (HInit s) Hj Hk (fun E => Hne (eq_sym E)) Heq). }
  split.
  { intros j1 j2 h1 h2 Hj1 Hj2 Hne.
    apply env_clear_lookup in Hj1 as (_ & Hj1). apply env_clear_lookup in Hj2 as (_ & Hj2).
    exact (Hdist j1 j2 h1 h2 Hj1 Hj2 Hne). }
  split.
  { rewrite F5. apply Forall_forall. intros x Hx.
    destruct (EF2 x Hx) as [Hq| ->].
    - rewrite Forall_forall in Hf. exact (Hf x Hq).
    - exact (proj1 (Hown k _ Hk)). }
  split; [exact EF3|]. rewrite <- Hb. exact EF4.
Qed.

Lemma script_inv_drop (env : list (option Handle)) (w : list (option Z)) (st : State)
    (k : nat) (h : Handle) (sub : SubscriberPort) (sent : list Z) :
  env !! k = Some (Some h) ->
  script_inv i B env w st sub sent ->
  script_inv i B (<[k := None]> env) (<[k := None]> w) (drop_handle h st) sub sent.
Proof.
  intros Hk (Hi & Hb & Hlen & Hval & Hown & Hdist & Hf & Hsub & Hex).
  destruct (drop_handle_fields h st) as (D1 & D2 & D3).
  assert (Hq : queued_payloads (drop_handle h st) sub = queued_payloads st sub).
  { apply queued_payloads_ext. intros x Hx. rewrite D1, lookup_delete_ne; [reflexivity|].
    intros Heq. apply (proj2 (Hown k _ Hk)). simpl. rewrite Heq. exact Hx. }
  unfold script_inv. rewrite Hq, D1, D2, D3.
  split; [exact Hi|]. split; [exact Hb|].
  split; [rewrite !length_insert; exact Hlen|].
  split.
  { intros j s2 Hj. apply env_clear_lookup in Hj as (Hne & Hj).
    destruct (Hval j s2 Hj) as (v2 & Hw2 & Hs2). exists v2.
    rewrite list_lookup_insert_ne by exact Hne.
    rewrite lookup_delete_ne; [split; assumption|].
    exact (Hdist k j _ _ Hk Hj Hne). }
  split.
  { intros j h2 Hj. apply env_clear_lookup in Hj as (_ & Hj). exact (Hown j h2 Hj). }
  split.
  { intros j1 j2 h1 h2 Hj1 Hj2 Hne.
    apply env_clear_lookup in Hj1 as (_ & Hj1). apply env_clear_lookup in Hj2 as (_ & Hj2).
    exact (Hdist j1 j2 h1 h2 Hj1 Hj2 Hne). }
  split; [exact Hf|]. split; [exact Hsub | exact Hex].
Qed.

Lemma script_inv_send_copy (env : list (option Handle)) (w : list (option Z))
    (st st1 : State) (v : Z) (sub : SubscriberPort) (sent : list Z) :
  publish v st = inl st1 ->
  script_inv i B env w st sub sent ->
  exists sub', script_inv i B env w st1 sub' (sent ++ [v]).
Proof.
  intros E (Hi & Hb & Hlen & Hval & Hown & Hdist & Hf & Hsub & Hex).
  destruct (publish_inl v st st1 E) as (P1 & P2 & b & P3).
  assert (Hq : queued_payloads st1 sub = queued_payloads st sub).
  { apply queued_payloads_ext. intros x Hx. rewrite P1, lookup_insert_ne; [reflexivity|].
    rewrite Forall_forall in Hf. specialize (Hf x Hx). lia. }
  rewrite <- Hq in Hsub, Hex. rewrite <- Hb in Hex.
  assert (Hs : segment st1 !! next_slot st = Some [v])
    by (rewrite P1; apply lookup_insert_eq).
  destruct (enqueue_facts b (next_slot st) sub st1 sent v Hs Hsub Hex)
    as (EF1 & EF2 & EF3 & EF4).
  exists (fst (enqueue b (next_slot st) sub)).
  unfold script_inv.
  split; [rewrite P3; exact (deliver_at _ _ _ i sub Hi)|].
  split; [rewrite EF1; exact Hb|].
  split; [exact Hlen|].
  split.
  { intros j s2 Hj. destruct (Hval j s2 Hj) as (v2 & Hw2 & Hs2). exists v2.
    split; [exact Hw2|]. rewrite P1, lookup_insert_ne; [exact Hs2|].
    pose proof (proj1 (Hown j _ Hj)). simpl in *. lia. }
  split.
  { intros j h Hj. destruct (Hown j h Hj) as [Hl Hnq]. rewrite P2.
    split; [lia|]. intros Hin. destruct (EF2 _ Hin) as [Hq'|Heq]; [exact (Hnq Hq')|lia]. }
  split; [exact Hdist|].
  split.
  { rewrite P2. apply Forall_forall. intros x Hx.
    destruct (EF2 x Hx) as [Hq'| ->]; [|lia].
    rewrite Forall_forall in Hf. specialize (Hf x Hq'). lia. }
  split; [exact EF3|]. rewrite <- Hb. exact EF4.
Qed.

Lemma script_inv_step (op : Op) (env env' : list (option Handle)) (w : list (option Z))
    (st st' : State) (sub : SubscriberPort) (sent : list Z) :
  step op env st = Some (env', st') ->
  script_inv i B env w st sub sent ->
  exists sub', script_inv i B env' (fst (sent_step op w)) st' sub' (sent ++ snd (sent_step op w)).
Proof.
  intros Hs Hinv. destruct op as [|k v|k|k|v]; simpl in Hs |- *.
  - destruct (loan_uninit st) as [[st1 s]|e] eqn:E; [|discriminate].
    injection Hs as <- <-. exists sub. rewrite app_nil_r.
    exact (script_inv_loan env w st st1 s sub sent E Hinv).
  - destruct (env !! k) as [[[s|s]|]|] eqn:Hk; try discriminate.
    injection Hs as <- <-. exists sub. rewrite app_nil_r.
    exact (script_inv_write env w st k s v sub sent Hk Hinv).
  - destruct (env !! k) as [[[s|s]|]|] eqn:Hk; try discriminate.
    injection Hs as <- <-.
    destruct Hinv as (Hi & Hb & Hlen & Hval & Hrest).
    destruct (Hval k s Hk) as (v & Hw & Hseg).
    rewrite Hw. simpl.
    exact (script_inv_send env w st k s v sub sent Hk Hw
             (conj Hi (conj Hb (conj Hlen (conj Hval Hrest))))).
  - destruct (env !! k) as [[h|]|] eqn:Hk; try discriminate.
    injection Hs as <- <-. exists sub. rewrite app_nil_r.
    exact (script_inv_drop env w st k h sub sent Hk Hinv).
  - destruct (publish v st) as [st1|e] eqn:E; [|discriminate].
    injection Hs as <- <-.
    exact (script_inv_send_copy env w st st1 v sub sent E Hinv).
Qed.

Lemma script_inv_run (ops : list Op) :
  forall (env env' : list (option Handle)) (w : list (option Z)) (st st' : State)
    (sub : SubscriberPort) (sent : list Z),
  run ops env st = Some (env', st') ->
  script_inv i B env w st sub sent ->
  exists w' sub', script_inv i B env' w' st' sub' (sent ++ sent_values ops w).
Proof.
  induction ops as [|op ops IH]; intros env env' w st st' sub sent Hr Hinv; simpl in Hr.
  - injection Hr as <- <-. exists w, sub. simpl. rewrite app_nil_r. exact Hinv.
  - destruct (step op env st) as [[env1 st1]|] eqn:E; [|discriminate].
    destruct (script_inv_step op env env1 w st st1 sub sent E Hinv) as (sub1 & Hinv1).
    destruct (IH _ _ _ _ _ _ _ Hr Hinv1) as (w' & sub' & Hinv').
    exists w', sub'. simpl.
    destruct (sent_step op w) as [w1 out]. simpl in Hinv'.
    rewrite app_assoc. exact Hinv'.
Qed.
End Scripts.
End PubSubFacts.

Section PubSubTheorems.
Import PubSub PubSubFacts.
Local Open Scope nat_scope.

(** C1: publishing a value [v] with [loan_uninit(); write_payload(v); send()] and
    then calling [receive()] on a connected subscriber with an empty queue yields
    exactly [v]; after several publishes the subscriber reads the values in the
    order they were sent, a subsequence of them in general and all of them when
    its buffer holds them. The same holds for any script that holds several
    samples at once and sends or drops them in any order, [send_copy]
    included: the subscriber reads the values of the sends in the order of
    the sends, whatever the order of the loans, and dropped samples are
    never read. *)
Theorem publish_receive_fifo (st : State) (i : nat) (sub : SubscriberPort) :
  subscriber_ports st !! i = Some sub ->
  queue sub = [] ->
  1 <= buffer_size sub ->
  loan_counter st < max_loaned_samples st ->
  (forall v, exists st', publish v st = inl st' /\ fst (receive i st') = Some [v]) /\
  (forall vs, exists st',
     publish_all vs st = inl st' /\
     drain i (length vs) st' `sublist_of` map (fun v => [v]) vs /\
     (length vs <= buffer_size sub -> drain i (length vs) st' = map (fun v => [v]) vs)) /\
  (forall ops env' st', run ops [] st = Some (env', st') ->
     let sent := sent_values ops [] in
     drain i (length sent) st' `sublist_of` map (fun v => [v]) sent /\
     (length sent <= buffer_size sub ->
      drain i (length sent) st' = map (fun v => [v]) sent)).
Proof.
  intros Hi Hq Hb Hc.
  assert (Hf : Forall (fun s => s < next_slot st) (queue sub)) by (rewrite Hq; constructor).
  assert (Hnil : queued_payloads st sub = []) by (unfold queued_payloads; rewrite Hq; reflexivity).
  assert (Hall : forall vs, exists st',
     publish_all vs st = inl st' /\
     drain i (length vs) st' `sublist_of` map (fun v => [v]) vs /\
     (length vs <= buffer_size sub -> drain i (length vs) st' = map (fun v => [v]) vs)).
  { intros vs.
    destruct (publish_all_spec vs st i sub Hc Hi Hf)
      as (st' & sub' & Hp & Hi' & Hsub & Hex).
    rewrite Hnil in Hsub, Hex. simpl in Hsub, Hex.
    exists st'. rewrite (drain_spec i (length vs) st' sub' Hi').
    rewrite take_ge by (apply sublist_length in Hsub; rewrite length_map in Hsub; lia).
    split; [exact Hp|]. split; [exact Hsub|].
    intros Hl. apply Hex. rewrite Hq. simpl. exact Hl. }
  refine (conj _ (conj Hall _)).
  - intros v. destruct (Hall [v]) as (st' & Hp & _ & Hex).
    simpl in Hp. destruct (publish v st) as [st1|e] eqn:E; [|discriminate].
    injection Hp as <-. exists st1. split; [reflexivity|].
    specialize (Hex ltac:(simpl; lia)). simpl in Hex.
    destruct (receive i st1) as [[p|] st2]; simpl in *; congruence.
  - intros ops env' st' Hr sent.
    destruct (script_inv_run i (buffer_size sub) ops [] env' [] st st' sub [] Hr
                (script_inv_start i (buffer_size sub) st sub Hi Hq eq_refl))
      as (w' & sub' & Hinv).
    destruct Hinv as (Hi' & _ & _ & _ & _ & _ & _ & Hsub & Hex).
    simpl in Hsub, Hex. unfold sent.
    rewrite (drain_spec i _ st' sub' Hi').
    rewrite take_ge by (apply sublist_length in Hsub; rewrite length_map in Hsub; lia).
    split; [exact Hsub|]. intros Hl. exact (proj1 (Hex Hl)).
Qed.

(** C2: the outstanding-loan counter goes up by one on each successful loan and
    down by one on drop and on send; while it equals [max_loaned_samples] every
    loan fails with [ExceedsMaxLoans] (for slices within the size limit), and
    after dropping or sending one outstanding sample a new loan succeeds. *)
Theorem loan_counter_spec (st : State) :
  (forall st' s, loan_uninit st = inl (st', s) -> loan_counter st' = S (loan_counter st)) /\
  (forall st' s, loan st = inl (st', s) -> loan_counter st' = S (loan_counter st)) /\
  (forall n st' s, loan_slice n st = inl (st', s) -> loan_counter st' = S (loan_counter st)) /\
  (forall s, loan_counter (drop s st) = Nat.pred (loan_counter st)) /\
  (forall s, loan_counter (drop_uninit s st) = Nat.pred (loan_counter st)) /\
  (forall s, loan_counter (fst (send s st)) = Nat.pred (loan_counter st)) /\
  (loan_counter st = max_loaned_samples st ->
   loan_uninit st = inr ExceedsMaxLoans /\
   loan st = inr ExceedsMaxLoans /\
   (forall n, n <= max_slice_len st -> loan_slice n st = inr ExceedsMaxLoans) /\
   (0 < loan_counter st ->
    (forall s, exists r, loan_uninit (drop s st) = inl r) /\
    (forall s, exists r, loan_uninit (drop_uninit s st) = inl r) /\
    (forall s, exists r, loan_uninit (fst (send s st)) = inl r))).
Proof.
  assert (Hok : forall st', loan_counter st' <> max_loaned_samples st' ->
                exists r, loan_uninit st' = inl r)
    by (intros st' H; eexists; apply loan_uninit_ok; exact H).
  assert (Hsend : forall s, loan_counter (fst (send s st)) = Nat.pred (loan_counter st) /\
                            max_loaned_samples (fst (send s st)) = max_loaned_samples st)
    by (intros s; destruct (send_fields s st) as (F1 & F2 & _); split; assumption).
  refine (conj _ (conj _ (conj _ (conj _ (conj _ (conj _ _)))))).
  - intros st' s H. unfold loan_uninit, loan_sample in H.
    destruct (Nat.eqb _ _); [discriminate|].
    injection H as <- _. reflexivity.
  - intros st' s H. unfold loan, loan_uninit, loan_sample in H.
    destruct (Nat.eqb _ _); [discriminate|].
    injection H as <- _. reflexivity.
  - intros n st' s H. unfold loan_slice, loan_slice_uninit, loan_sample in H.
    destruct (Nat.ltb _ _); [discriminate|].
    destruct (Nat.eqb _ _); [discriminate|].
    injection H as <- _. reflexivity.
  - intros s. reflexivity.
  - intros s. reflexivity.
  - intros s. exact (proj1 (Hsend s)).
  - intros Hm. unfold loan, loan_slice, loan_slice_uninit, loan_uninit, loan_sample.
    rewrite Hm, Nat.eqb_refl.
    refine (conj eq_refl (conj eq_refl (conj _ _))).
    + intros n Hn.
      destruct (Nat.ltb_spec (max_slice_len st) n); [lia | reflexivity].
    + intros Hpos. refine (conj _ (conj _ _)); intros s; apply Hok.
      * simpl. lia.
      * simpl. lia.
      * destruct (Hsend s) as [-> ->]. lia.
Qed.

(** C5: with [max_slice_len = L], [loan_slice(n)] succeeds for every [n <= L]
    (while a loan is still available) and hands out a sample of exactly [n]
    default elements; for [n > L] it fails with [ExceedsMaxLoanSize]. *)
Theorem loan_slice_bounds (st : State) (L : nat) :
  max_slice_len st = L ->
  loan_counter st < max_loaned_samples st ->
  (forall n, n <= L -> exists st' s,
     loan_slice n st = inl (st', s) /\
     payload st' s = repeat default_value n /\
     length (payload st' s) = n) /\
  (forall n, L < n -> loan_slice n st = inr ExceedsMaxLoanSize).
Proof.
  intros HL Hc. unfold loan_slice, loan_slice_uninit, loan_sample. split.
  - intros n Hn.
    destruct (Nat.ltb_spec (max_slice_len st) n); [lia|].
    destruct (Nat.eqb_spec (loan_counter st) (max_loaned_samples st)); [lia|].
    do 2 eexists. split; [reflexivity|].
    unfold payload. simpl. rewrite lookup_insert_eq. simpl.
    split; [reflexivity|]. apply repeat_length.
  - intros n Hn.
    destruct (Nat.ltb_spec (max_slice_len st) n); [reflexivity | lia].
Qed.
End PubSubTheorems.

(** ** Witnesses: the theorems with hypotheses applied to concrete inputs *)

Section FfiWitnesses.
Import SampleMutFfi.

(** C8 on a handle word at 1 pointing to a struct at 10 holding the sample 7. *)
Lemma payload_accessors_same_for_ipc_and_local_witness :
  let c : iox2_sample_mut_t nat :=
    {| service_type := IPC; value := Some 7%nat; deleter := NoOpDeleter |} in
  let m : Mem nat := {| cells := <[10 := c]> ∅; words := <[1 := 10]> ∅ |} in
  let ipc (u : nat) := (Z.of_nat u + 100)%Z in
  let loc (u : nat) := Z.of_nat u in
  words m !! 1 = Some 10 /\ cells m !! 10 = Some c /\ value c = Some 7%nat /\
  forall t : iox2_service_type_e,
    let mt := with_service_type m 10 c t in
    let out := Done (tt, {| cells := cells mt;
                            words := payload_outputs ipc loc m 7%nat 20 21 |}) in
    iox2_sample_mut_payload_mut nat ipc loc 1 20 21 mt = out /\
    iox2_sample_mut_payload nat ipc loc 1 20 21 mt = out.
Proof.
  intros c m ipc loc.
  split; [reflexivity|]. split; [reflexivity|]. split; [reflexivity|].
  apply (payload_accessors_same_for_ipc_and_local ipc loc m 1 20 21 10 c 7%nat);
    reflexivity.
Defined.

(** C7 moving the struct at 1 (holding 7, dealloc deleter) into the struct at 2. *)
Lemma move_transfers_sample_witness :
  let source : iox2_sample_mut_t nat :=
    {| service_type := LOCAL; value := Some 7%nat; deleter := DeallocDeleter |} in
  let dest : iox2_sample_mut_t nat :=
    {| service_type := IPC; value := None; deleter := NoOpDeleter |} in
  let m : Mem nat := {| cells := <[1 := source]> (<[2 := dest]> ∅); words := ∅ |} in
  1 <> 2 /\ cells m !! 1 = Some source /\ value source = Some 7%nat /\
  cells m !! 2 = Some dest /\
  exists m',
    iox2_sample_mut_move nat 1 2 5 m = Done (tt, m') /\
    cells m' !! 1 = Some (set_value source None) /\
    cells m' !! 2 = Some {| service_type := service_type source;
                            value := Some 7%nat;
                            deleter := deleter source |} /\
    (forall l, l <> 1 -> l <> 2 -> cells m' !! l = cells m !! l) /\
    words m' = <[5 := 2]> (words m).
Proof.
  intros source dest m.
  split; [lia|]. split; [reflexivity|]. split; [reflexivity|]. split; [reflexivity|].
  apply (move_transfers_sample m 1 2 5 source dest 7%nat); [lia | reflexivity ..].
Defined.

(** C3 on a struct at 3 holding the sample 4 in caller storage, with a port
    whose [send] reaches [u] subscribers for the sample [u]. *)
Lemma send_empties_cell_and_detects_resend_witness :
  let c : iox2_sample_mut_t nat :=
    {| service_type := IPC; value := Some 4%nat; deleter := NoOpDeleter |} in
  let m : Mem nat := {| cells := <[3 := c]> ∅; words := ∅ |} in
  let port_send (t : iox2_service_type_e) (u : nat) : sum Z unit := inl (Z.of_nat u) in
  let into_c_int (e : unit) := 1 in
  cells m !! 3 = Some c /\
  (value c = None ->
   iox2_sample_mut_send nat unit port_send into_c_int 3 8 m
   = Panic "Trying to send an already sent sample!") /\
  (forall x, value c = Some x ->
   exists m',
     iox2_sample_mut_send nat unit port_send into_c_int 3 8 m
     = Done (match port_send (service_type c) x with
             | inl _ => IOX2_OK
             | inr e => into_c_int e
             end, m') /\
     cells m' !! 3
     = match deleter c with
       | NoOpDeleter => Some (set_value c None)
       | DeallocDeleter => None
       end /\
     (deleter c = NoOpDeleter ->
      forall number_of_recipients',
        iox2_sample_mut_send nat unit port_send into_c_int 3 number_of_recipients' m'
        = Panic "Trying to send an already sent sample!")).
Proof.
  intros c m port_send into_c_int.
  split; [reflexivity|].
  apply (send_empties_cell_and_detects_resend port_send into_c_int m 3 8 c).
  reflexivity.
Defined.
End FfiWitnesses.

Section RemoveDeadNodeWitness.
Import DynamicConfigModel.

(** C4 on two publishers and one subscriber, two of them on node 7, with a
    callback that removes publishers and skips subscribers. *)
Lemma remove_dead_node_id_spec_witness :
  let pd (id node : Z) :=
    {| publisher_id := id; pub_node_id := node; number_of_samples := 2;
       max_slice_len := 1; data_segment_type := Static;
       max_number_of_segments := 1; pub_owner_uid := 0; pub_group_gid := 0;
       pub_mode := 0 |} in
  let sd := {| subscriber_id := 3; sub_node_id := 7; buffer_size := 2;
               sub_owner_uid := 0; sub_group_gid := 0; sub_mode := 0 |} in
  let dc := {| publishers := [(0%nat, pd 1 7); (1%nat, pd 2 8)];
               subscribers := [(0%nat, sd)] |} in
  let cb (n : nat) (p : UniquePortId) :=
    (Datatypes.S n, match p with Publisher _ => RemovePort | Subscriber _ => SkipPort end) in
  NoDup (map fst (publishers dc)) /\
  NoDup (map (fun e => publisher_id (snd e)) (publishers dc)) /\
  NoDup (map fst (subscribers dc)) /\
  NoDup (map (fun e => subscriber_id (snd e)) (subscribers dc)) /\
  let '(dc', _, tr) := remove_dead_node_id cb dc 7 0%nat in
  map fst tr =
    map (fun e => pub_port (snd e))
      (List.filter (fun e => Z.eqb (pub_node_id (snd e)) 7) (publishers dc)) ++
    map (fun e => sub_port (snd e))
      (List.filter (fun e => Z.eqb (sub_node_id (snd e)) 7) (subscribers dc)) /\
  (forall e, In e (publishers dc') <->
     In e (publishers dc) /\
     ~ (pub_node_id (snd e) = 7 /\ In (pub_port (snd e), RemovePort) tr)) /\
  (forall e, In e (subscribers dc') <->
     In e (subscribers dc) /\
     ~ (sub_node_id (snd e) = 7 /\ In (sub_port (snd e), RemovePort) tr)).
Proof.
  intros pd sd dc cb.
  split; [apply (bool_decide_unpack _); vm_compute; exact I|].
  split; [apply (bool_decide_unpack _); vm_compute; exact I|].
  split; [apply (bool_decide_unpack _); vm_compute; exact I|].
  split; [apply (bool_decide_unpack _); vm_compute; exact I|].
  apply (remove_dead_node_id_spec cb dc 7 0%nat);
    apply (bool_decide_unpack _); vm_compute; exact I.
Defined.
End RemoveDeadNodeWitness.

Section PubSubWitnesses.
Import PubSub.
Local Open Scope nat_scope.

(** C1 on a fresh publisher with four loans and one subscriber of buffer 2:
    publishing 5 and then 6 lets the subscriber read 5 and then 6; and the
    script of the test [publisher_can_borrow_multiple_sample_at_once] (loan
    and write 1, 2 and 3, [send_copy(4)], send 3, drop 2 and 1) lets it
    read 4 and then 3. *)
Lemma publish_receive_fifo_witness :
  let st := create 4 125 false [{| buffer_size := 2; queue := [] |}] in
  let ops := [OpLoanUninit; OpWritePayload 0 1%Z; OpLoanUninit; OpWritePayload 1 2%Z;
              OpLoanUninit; OpWritePayload 2 3%Z; OpSendCopy 4%Z; OpSend 2;
              OpDrop 1; OpDrop 0] in
  subscriber_ports st !! 0 = Some {| buffer_size := 2; queue := [] |} /\
  (exists st', publish 5%Z st = inl st' /\ fst (receive 0 st') = Some [5%Z]) /\
  (exists st', publish_all [5%Z; 6%Z] st = inl st' /\
               drain 0 2 st' = [[5%Z]; [6%Z]]) /\
  sent_values ops [] = [4%Z; 3%Z] /\
  (exists env' st', run ops [] st = Some (env', st') /\
                    drain 0 2 st' = [[4%Z]; [3%Z]]).
Proof.
  intros st ops.
  destruct (publish_receive_fifo st 0 {| buffer_size := 2; queue := [] |})
    as (H1 & H2 & H3); [reflexivity | reflexivity | simpl; lia | simpl; lia |].
  split; [reflexivity|]. split; [exact (H1 5%Z)|]. split.
  { destruct (H2 [5%Z; 6%Z]) as (st' & Hp & _ & Hex).
    exists st'. split; [exact Hp|]. apply Hex. simpl. lia. }
  split; [reflexivity|].
  assert (Hr : exists env' st', run ops [] st = Some (env', st'))
    by (eexists _, _; reflexivity).
  destruct Hr as (env' & st' & Hr). exists env', st'. split; [exact Hr|].
  exact (proj2 (H3 ops env' st' Hr) ltac:(vm_compute; lia)).
Defined.

(** C2 with [max_loaned_samples = 2] and two samples out: a third loan fails
    with [ExceedsMaxLoans]; after dropping one or sending one a loan succeeds. *)
Lemma loan_counter_spec_witness :
  let st := update (create 2 125 false []) 2 2 ∅ [] in
  loan_counter st = max_loaned_samples st /\ 0 < loan_counter st /\
  loan_uninit st = inr ExceedsMaxLoans /\
  (exists r, loan_uninit (drop {| init_slot := 0 |} st) = inl r) /\
  (exists r, loan_uninit (fst (send {| init_slot := 1 |} st)) = inl r).
Proof.
  intros st.
  destruct (loan_counter_spec st) as (_ & _ & _ & _ & _ & _ & H).
  destruct (H eq_refl) as (H1 & _ & _ & H4).
  destruct (H4 ltac:(simpl; lia)) as (Hd & _ & Hs).
  split; [reflexivity|]. split; [simpl; lia|]. split; [exact H1|].
  split; [apply Hd | apply Hs].
Defined.

(** C5 with [initial_max_slice_len = 125]: [loan_slice 125] yields 125
    elements and [loan_slice 126] fails with [ExceedsMaxLoanSize]. *)
Lemma loan_slice_bounds_witness :
  let st := create 2 125 false [] in
  (exists st' s, loan_slice 125 st = inl (st', s) /\ length (payload st' s) = 125) /\
  loan_slice 126 st = inr ExceedsMaxLoanSize.
Proof.
  intros st.
  destruct (loan_slice_bounds st 125 eq_refl ltac:(simpl; lia)) as [H1 H2].
  split.
  - destruct (H1 125 ltac:(lia)) as (st' & s & Ha & _ & Hl).
    exists st', s. split; [exact Ha | exact Hl].
  - apply H2. lia.
Defined.
End PubSubWitnesses.

(** ** Further properties of the embedded code *)

Module PermissionMaskFacts.
Import DynamicConfigModel PermissionFacts.

Lemma mode_to_permission_land (m : Z) : mode_to_permission m = Z.land m 511.
Proof.
  apply Z.bits_inj'. intros j Hj.
  rewrite mode_to_permission_steps, !testbit_mode_bit_step by lia.
  unfold permission_none. rewrite Z.bits_0, Z.land_spec.
  change 511 with (Z.ones 9). rewrite Z.testbit_ones_nonneg by lia.
  destruct (Z.ltb_spec j 9) as [Hlt|Hge].
  - assert (j = 0 \/ j = 1 \/ j = 2 \/ j = 3 \/ j = 4 \/ j = 5 \/ j = 6 \/ j = 7 \/ j = 8)
      as Hc by lia.
    destruct Hc as [->|[->|[->|[->|[->|[->|[->|[->| ->]]]]]]]]; simpl;
      rewrite ?andb_false_r, ?andb_true_r, ?orb_false_r, ?orb_false_l; reflexivity.
  - rewrite andb_false_r.
    repeat match goal with
           | |- context [Z.eqb ?k j] =>
               let E := fresh in
               assert (E : Z.eqb k j = false) by (apply Z.eqb_neq; lia); rewrite E
           end.
    rewrite ?andb_false_r. reflexivity.
Qed.
End PermissionMaskFacts.

Section PermissionMaskTheorems.
Import DynamicConfigModel PermissionMaskFacts.

(** [mode_to_permission m] is [m] restricted to its nine rwx bits
    ([m & 0o777]): the set-uid, set-gid and sticky bits and every higher bit
    of the mode are never carried into the [Permission]. *)
Theorem mode_to_permission_is_rwx_mask (m : Z) :
  mode_to_permission m = Z.land m 511.
Proof. exact (mode_to_permission_land m). Qed.

(** [set_permission(p)] stores the low 16 bits of [p] as the mode, for
    publisher and subscriber details. Writing back the permission read from
    an endpoint leaves its [permission()] unchanged and reduces its [mode()]
    to the nine rwx bits. *)
Theorem details_set_permission_roundtrip
    (pd : PublisherDetails) (sd : SubscriberDetails) (p : Permission) :
  PublisherDetails.mode (PublisherDetails.set_permission pd p) = Z.land p 65535 /\
  SubscriberDetails.mode (SubscriberDetails.set_permission sd p) = Z.land p 65535 /\
  PublisherDetails.permission (PublisherDetails.set_permission pd (PublisherDetails.permission pd))
    = PublisherDetails.permission pd /\
  PublisherDetails.mode (PublisherDetails.set_permission pd (PublisherDetails.permission pd))
    = Z.land (PublisherDetails.mode pd) 511 /\
  SubscriberDetails.permission (SubscriberDetails.set_permission sd (SubscriberDetails.permission sd))
    = SubscriberDetails.permission sd /\
  SubscriberDetails.mode (SubscriberDetails.set_permission sd (SubscriberDetails.permission sd))
    = Z.land (SubscriberDetails.mode sd) 511.
Proof.
  assert (Hmask : forall m, Z.land (Z.land m 511) 65535 = Z.land m 511)
    by (intros m; rewrite <- Z.land_assoc; reflexivity).
  assert (Hidem : forall m, Z.land (Z.land m 511) 511 = Z.land m 511)
    by (intros m; rewrite <- Z.land_assoc; reflexivity).
  unfold PublisherDetails.mode, PublisherDetails.permission, PublisherDetails.set_permission,
    SubscriberDetails.mode, SubscriberDetails.permission, SubscriberDetails.set_permission,
    PublisherDetails.set_mode, SubscriberDetails.set_mode; simpl.
  rewrite !mode_to_permission_land, !Hmask, !Hidem.
  repeat split.
Qed.
End PermissionMaskTheorems.

Section BuilderTheorems.
Import PortFactorySubscriberModel.
Context {DegradationCallback PortFactoryRef F : Type}
  (DegradationCallback_new : F -> DegradationCallback).

(** The subscriber builder's [permission(p)] configures the mode
    [p & 0xFFFF]; given the permission of a mode [m], it configures
    [m & 0o777], so the set-uid, set-gid and sticky bits of [m] are lost,
    while [mode(m)] keeps [m] as it is. *)
Theorem builder_permission_mode
    (b : PortFactorySubscriber DegradationCallback PortFactoryRef) (p m : Z) :
  mode _ (config _ _ (set_permission b p)) = Some (Z.land p 65535) /\
  mode _ (config _ _ (set_permission b (DynamicConfigModel.mode_to_permission m)))
    = Some (Z.land m 511) /\
  mode _ (config _ _ (set_mode b m)) = Some m.
Proof.
  simpl. rewrite PermissionMaskFacts.mode_to_permission_land, <- Z.land_assoc.
  repeat split.
Qed.

(** [__internal_partial_clone] commutes with every builder setter
    ([buffer_size], [owner_uid], [group_gid], [mode], [permission]); it
    forgets a callback installed by [set_degradation_callback], and cloning
    a clone changes nothing. *)
Theorem partial_clone_commutes_with_setters
    (b : PortFactorySubscriber DegradationCallback PortFactoryRef)
    (v uid gid m p : Z) (cb : option F) :
  internal_partial_clone (set_buffer_size b v) = set_buffer_size (internal_partial_clone b) v /\
  internal_partial_clone (set_owner_uid b uid) = set_owner_uid (internal_partial_clone b) uid /\
  internal_partial_clone (set_group_gid b gid) = set_group_gid (internal_partial_clone b) gid /\
  internal_partial_clone (set_mode b m) = set_mode (internal_partial_clone b) m /\
  internal_partial_clone (set_permission b p) = set_permission (internal_partial_clone b) p /\
  internal_partial_clone (set_degradation_callback DegradationCallback_new b cb)
    = internal_partial_clone b /\
  internal_partial_clone (internal_partial_clone b) = internal_partial_clone b.
Proof. repeat split. Qed.
End BuilderTheorems.

Module SweepCountFacts.
Import DynamicConfigModel.
Local Open Scope nat_scope.

Lemma container_remove_notin {A} (h : ContainerHandle) (l : Container A) :
  h ∉ map fst l -> container_remove h l = l.
Proof.
  unfold container_remove.
  induction l as [|[h' a'] l IH]; simpl; intros Hn; [reflexivity|].
  apply not_elem_of_cons in Hn as [Hne Hn].
  destruct (Nat.eqb_spec h' h); [congruence|]. simpl. f_equal. apply IH. exact Hn.
Qed.

Lemma container_remove_mid {A} (pre rest : Container A) (h : ContainerHandle) (a : A) :
  NoDup (map fst (pre ++ (h, a) :: rest)) ->
  container_remove h (pre ++ (h, a) :: rest) = pre ++ rest.
Proof.
  intros Hnd. rewrite map_app in Hnd. simpl in Hnd.
  apply NoDup_app in Hnd as (_ & Hdis & Hnd2). apply NoDup_cons in Hnd2 as [Hnr _].
  assert (Hnp : h ∉ map fst pre) by (intros Hi; apply (Hdis h Hi); set_solver).
  unfold container_remove. rewrite List.filter_app. simpl. rewrite Nat.eqb_refl. simpl.
  pose proof (container_remove_notin h pre Hnp) as E1.
  pose proof (container_remove_notin h rest Hnr) as E2.
  exact (f_equal2 (@app _) E1 E2).
Qed.

Lemma NoDup_map_rest {A} (pre rest : Container A) (h : ContainerHandle) (a : A) :
  NoDup (map fst (pre ++ (h, a) :: rest)) -> NoDup (map fst (pre ++ rest)).
Proof.
  rewrite !map_app. simpl. intros Hnd.
  apply NoDup_app in Hnd as (H1 & H2 & H3). apply NoDup_cons in H3 as [_ H3].
  apply NoDup_app. split; [exact H1|]. split; [|exact H3].
  intros x Hx Hx'. apply (H2 x Hx). set_solver.
Qed.

Lemma count_removed_snoc (P : UniquePortId -> bool) (tr : Trace) x :
  count_removed P (tr ++ [x]) =
  count_removed P tr +
  (if P (fst x) && PortCleanupAction_eqb (snd x) RemovePort then 1 else 0).
Proof.
  unfold count_removed. rewrite List.filter_app, length_app. simpl.
  destruct (P (fst x) && PortCleanupAction_eqb (snd x) RemovePort); reflexivity.
Qed.

Lemma count_removed_nil (P : UniquePortId -> bool) : count_removed P [] = 0.
Proof. reflexivity. Qed.

Lemma filter_other_nodes {A} (node_of : A -> NodeId) (node_id : NodeId) (l : Container A) :
  Forall (fun e => node_of (snd e) <> node_id)
    (List.filter (fun e => negb (Z.eqb (node_of (snd e)) node_id)) l).
Proof.
  induction l as [|e l IH]; simpl; [constructor|].
  destruct (Z.eqb_spec (node_of (snd e)) node_id); simpl; [exact IH|].
  constructor; assumption.
Qed.

Section SweepCount.
Context {S : Type} (cb : S -> UniquePortId -> S * PortCleanupAction).
Context {A B : Type} (node_of : A -> NodeId) (port_of : A -> UniquePortId)
  (release : DynamicConfig -> ContainerHandle -> DynamicConfig)
  (get : DynamicConfig -> Container A) (other : DynamicConfig -> B).
Hypothesis get_release :
  forall dc h, get (release dc h) = container_remove h (get dc).
Hypothesis other_release : forall dc h, other (release dc h) = other dc.
Variable node_id : NodeId.

Lemma sweep_nomatch (snap : Container A) :
  forall dc s tr,
  Forall (fun e => node_of (snd e) <> node_id) snap ->
  sweep cb node_of port_of release node_id snap dc s tr = (dc, s, tr).
Proof.
  induction snap as [|[h a] rest IH]; intros dc s tr Hf; simpl; [reflexivity|].
  inversion Hf as [|x l Hna Hf']; subst. simpl in Hna.
  apply Z.eqb_neq in Hna. rewrite Hna. apply IH. exact Hf'.
Qed.

Lemma sweep_count (snap : Container A) :
  forall pre dc s tr,
  get dc = pre ++ snap ->
  NoDup (map fst (pre ++ snap)) ->
  let '(dc', s', tr') := sweep cb node_of port_of release node_id snap dc s tr in
  other dc' = other dc /\
  (forall P, (forall a, P (port_of a) = true) ->
     length (get dc') + count_removed P tr' = length (get dc) + count_removed P tr) /\
  (forall P, (forall a, P (port_of a) = false) ->
     count_removed P tr' = count_removed P tr) /\
  ((forall s0 p, snd (cb s0 p) = RemovePort) ->
     get dc' = pre ++ List.filter (fun e => negb (matching node_of node_id e)) snap).
Proof.
  induction snap as [|[h a] rest IH]; intros pre dc s tr Hget Hnd; simpl.
  - split; [reflexivity|]. split; [intros; reflexivity|].
    split; [intros; reflexivity|]. intros _. exact Hget.
  - assert (Hnd' : NoDup (map fst ((pre ++ [(h, a)]) ++ rest)))
      by (rewrite <- app_assoc; exact Hnd).
    assert (Hget' : get dc = (pre ++ [(h, a)]) ++ rest)
      by (rewrite <- app_assoc; exact Hget).
    destruct (Z.eqb (node_of a) node_id) eqn:Em.
    + destruct (cb s (port_of a)) as [s1 act] eqn:Ecb.
      destruct (PortCleanupAction_eqb act RemovePort) eqn:Ea.
      * assert (Hg1 : get (release dc h) = pre ++ rest)
          by (rewrite get_release, Hget; apply container_remove_mid; exact Hnd).
        specialize (IH pre (release dc h) s1 (tr ++ [(port_of a, act)]) Hg1
                      (NoDup_map_rest pre rest h a Hnd)).
        destruct (sweep cb node_of port_of release node_id rest (release dc h) s1
                    (tr ++ [(port_of a, act)])) as [[dc' s'] tr'].
        destruct IH as (Ho & Hc & Hz & Hall).
        split; [rewrite Ho; apply other_release|].
        split; [|split].
        -- intros P HP. rewrite (Hc P HP), count_removed_snoc. simpl.
           rewrite HP, Ea, Hg1, Hget, !length_app. simpl. lia.
        -- intros P HP. rewrite (Hz P HP), count_removed_snoc. simpl.
           rewrite HP. simpl. lia.
        -- intros Hr. rewrite (Hall Hr). unfold matching at 2. simpl. rewrite Em.
           reflexivity.
      * specialize (IH (pre ++ [(h, a)]) dc s1 (tr ++ [(port_of a, act)]) Hget' Hnd').
        destruct (sweep cb node_of port_of release node_id rest dc s1
                    (tr ++ [(port_of a, act)])) as [[dc' s'] tr'].
        destruct IH as (Ho & Hc & Hz & Hall).
        split; [exact Ho|]. split; [|split].
        -- intros P HP. rewrite (Hc P HP), count_removed_snoc. simpl.
           rewrite Ea, andb_false_r. lia.
        -- intros P HP. rewrite (Hz P HP), count_removed_snoc. simpl.
           rewrite HP. simpl. lia.
        -- intros Hr. exfalso. specialize (Hr s (port_of a)). rewrite Ecb in Hr.
           simpl in Hr. subst act. discriminate Ea.
    + specialize (IH (pre ++ [(h, a)]) dc s tr Hget' Hnd').
      destruct (sweep cb node_of port_of release node_id rest dc s tr) as [[dc' s'] tr'].
      destruct IH as (Ho & Hc & Hz & Hall).
      split; [exact Ho|]. split; [exact Hc|]. split; [exact Hz|].
      intros Hr. rewrite (Hall Hr), <- app_assoc. unfold matching at 2. simpl.
      rewrite Em. reflexivity.
Qed.
End SweepCount.
End SweepCountFacts.

Section RemoveDeadNodeExtras.
Import DynamicConfigModel SweepCountFacts.
Local Open Scope nat_scope.
Context {S : Type} (cb : S -> UniquePortId -> S * PortCleanupAction).

(** [remove_dead_node_id] for a node that owns no registered publisher or
    subscriber never calls the cleanup callback and leaves the registry and
    the callback's state as they were. *)
Theorem remove_dead_node_id_unknown_node (dc : DynamicConfig) (node_id : NodeId) (s : S) :
  Forall (fun e => pub_node_id (snd e) <> node_id) (publishers dc) ->
  Forall (fun e => sub_node_id (snd e) <> node_id) (subscribers dc) ->
  remove_dead_node_id cb dc node_id s = (dc, s, []).
Proof.
  intros Hp Hs. unfold remove_dead_node_id.
  rewrite (sweep_nomatch cb pub_node_id pub_port release_publisher_handle node_id
             (publishers dc) dc s [] Hp).
  exact (sweep_nomatch cb sub_node_id sub_port release_subscriber_handle node_id
           (subscribers dc) dc s [] Hs).
Qed.

(** [remove_dead_node_id] lowers [number_of_publishers()] by exactly the
    number of callback calls on publisher ports that answered [RemovePort],
    and [number_of_subscribers()] likewise for subscriber ports (container
    handles being distinct, as the container hands them out). *)
Theorem remove_dead_node_id_counts (dc : DynamicConfig) (node_id : NodeId) (s : S) :
  NoDup (map fst (publishers dc)) ->
  NoDup (map fst (subscribers dc)) ->
  let '(dc', _, tr) := remove_dead_node_id cb dc node_id s in
  number_of_publishers dc' + count_removed is_publisher_port tr = number_of_publishers dc /\
  number_of_subscribers dc' + count_removed is_subscriber_port tr = number_of_subscribers dc.
Proof.
  intros H1 H2. unfold remove_dead_node_id, number_of_publishers, number_of_subscribers.
  pose proof (sweep_count cb pub_node_id pub_port release_publisher_handle publishers
                subscribers (fun _ _ => eq_refl) (fun _ _ => eq_refl) node_id
                (publishers dc) [] dc s [] eq_refl H1) as Hp.
  destruct (sweep cb pub_node_id pub_port release_publisher_handle node_id
              (publishers dc) dc s []) as [[dc1 s1] tr1].
  destruct Hp as (Ho1 & Hc1 & Hz1 & _).
  assert (H2' : NoDup (map fst ([] ++ subscribers dc1))) by (rewrite Ho1; exact H2).
  pose proof (sweep_count cb sub_node_id sub_port release_subscriber_handle subscribers
                publishers (fun _ _ => eq_refl) (fun _ _ => eq_refl) node_id
                (subscribers dc1) [] dc1 s1 tr1 eq_refl H2') as Hs.
  destruct (sweep cb sub_node_id sub_port release_subscriber_handle node_id
              (subscribers dc1) dc1 s1 tr1) as [[dc2 s2] tr2].
  destruct Hs as (Ho2 & Hc2 & Hz2 & _).
  specialize (Hc1 is_publisher_port (fun _ => eq_refl)).
  specialize (Hz1 is_subscriber_port (fun _ => eq_refl)).
  specialize (Hc2 is_subscriber_port (fun _ => eq_refl)).
  specialize (Hz2 is_publisher_port (fun _ => eq_refl)).
  rewrite count_removed_nil in Hc1, Hz1. rewrite Ho1 in Hc2.
  split; [rewrite Ho2, Hz2 | ]; lia.
Qed.

(** With a callback that answers [RemovePort] to every port,
    [remove_dead_node_id] removes exactly the endpoints of the node and keeps
    the others in their order; a second call for the same node then finds
    nothing: no callback call and no change. *)
Theorem remove_dead_node_id_remove_all (dc : DynamicConfig) (node_id : NodeId) (s : S) :
  (forall s0 p, snd (cb s0 p) = RemovePort) ->
  NoDup (map fst (publishers dc)) ->
  NoDup (map fst (subscribers dc)) ->
  let '(dc', s', _) := remove_dead_node_id cb dc node_id s in
  publishers dc' =
    List.filter (fun e => negb (Z.eqb (pub_node_id (snd e)) node_id)) (publishers dc) /\
  subscribers dc' =
    List.filter (fun e => negb (Z.eqb (sub_node_id (snd e)) node_id)) (subscribers dc) /\
  remove_dead_node_id cb dc' node_id s' = (dc', s', []).
Proof.
  intros Hr H1 H2. unfold remove_dead_node_id at 1.
  pose proof (sweep_count cb pub_node_id pub_port release_publisher_handle publishers
                subscribers (fun _ _ => eq_refl) (fun _ _ => eq_refl) node_id
                (publishers dc) [] dc s [] eq_refl H1) as Hp.
  destruct (sweep cb pub_node_id pub_port release_publisher_handle node_id
              (publishers dc) dc s []) as [[dc1 s1] tr1].
  destruct Hp as (Ho1 & _ & _ & Ha1).
  assert (H2' : NoDup (map fst ([] ++ subscribers dc1))) by (rewrite Ho1; exact H2).
  pose proof (sweep_count cb sub_node_id sub_port release_subscriber_handle subscribers
                publishers (fun _ _ => eq_refl) (fun _ _ => eq_refl) node_id
                (subscribers dc1) [] dc1 s1 tr1 eq_refl H2') as Hs.
  destruct (sweep cb sub_node_id sub_port release_subscriber_handle node_id
              (subscribers dc1) dc1 s1 tr1) as [[dc2 s2] tr2].
  destruct Hs as (Ho2 & _ & _ & Ha2).
  specialize (Ha1 Hr). specialize (Ha2 Hr). simpl in Ha1, Ha2.
  rewrite Ho1 in Ha2.
  assert (Hpub : publishers dc2 =
    List.filter (fun e => negb (Z.eqb (pub_node_id (snd e)) node_id)) (publishers dc))
    by (rewrite Ho2; exact Ha1).
  split; [exact Hpub|]. split; [exact Ha2|].
  unfold remove_dead_node_id.
  rewrite (sweep_nomatch cb pub_node_id pub_port release_publisher_handle node_id
             (publishers dc2) dc2 s2 []
             ltac:(rewrite Hpub; apply filter_other_nodes)).
  exact (sweep_nomatch cb sub_node_id sub_port release_subscriber_handle node_id
           (subscribers dc2) dc2 s2 []
           ltac:(rewrite Ha2; apply filter_other_nodes)).
Qed.
End RemoveDeadNodeExtras.

Module FfiFacts.
Import SampleMutFfi.

Section Runs.
Context {U : Type} {SendError : Type}
  (port_send : iox2_service_type_e -> U -> sum Z SendError)
  (into_c_int : SendError -> Z).

Lemma send_run (m : Mem U) (h nrp : Z) (c : iox2_sample_mut_t U) (x : U) :
  cells m !! h = Some c -> value c = Some x ->
  exists m',
    iox2_sample_mut_send U SendError port_send into_c_int h nrp m
    = Done (match port_send (service_type c) x with
            | inl _ => IOX2_OK
            | inr e => into_c_int e
            end, m') /\
    cells m' = match deleter c with
               | NoOpDeleter => <[h := set_value c None]> (cells m)
               | DeallocDeleter => delete h (<[h := set_value c None]> (cells m))
               end /\
    words m' = match port_send (service_type c) x with
               | inl v => if Z.eqb nrp 0 then words m else <[nrp := v]> (words m)
               | inr _ => words m
               end.
Proof.
  intros Hc Hv.
  unfold iox2_sample_mut_send, take_value, bind, read_cell, write_cell, ret,
    panic, write_word.
  repeat (rewrite Hc || rewrite Hv || (progress simpl)).
  destruct (deleter c); simpl;
    destruct (service_type c); simpl;
    destruct (port_send _ x) as [v|e]; simpl;
    try destruct (Z.eqb nrp 0); simpl;
    (eexists; split; [reflexivity|]); simpl; split; reflexivity.
Qed.

Lemma send_run_empty (m : Mem U) (h nrp : Z) (c : iox2_sample_mut_t U) :
  cells m !! h = Some c -> value c = None ->
  iox2_sample_mut_send U SendError port_send into_c_int h nrp m
  = Panic "Trying to send an already sent sample!".
Proof.
  intros Hc Hv.
  unfold iox2_sample_mut_send, take_value, bind, read_cell, write_cell, ret, panic.
  repeat (rewrite Hc || rewrite Hv || (progress simpl)). reflexivity.
Qed.
End Runs.

Section Moves.
Context {U : Type}.

Lemma move_run (m : Mem U) (src dst dhp : Z)
    (source dest : iox2_sample_mut_t U) (x : U) :
  src <> dst ->
  cells m !! src = Some source -> value source = Some x ->
  cells m !! dst = Some dest ->
  exists m',
    iox2_sample_mut_move U src dst dhp m = Done (tt, m') /\
    cells m' !! src = Some (set_value source None) /\
    cells m' !! dst = Some {| service_type := service_type source;
                              value := Some x;
                              deleter := deleter source |} /\
    words m' = <[dhp := dst]> (words m).
Proof.
  intros Hne Hs Hv Hd.
  unfold iox2_sample_mut_move, take_value, init_value, bind, read_cell, write_cell,
    write_word, ret, panic.
  simpl. rewrite Hs, Hd. simpl.
  simplify_map_eq /=.
  eexists. split; [reflexivity|]. simpl.
  split; [|split].
  - by simplify_map_eq.
  - by simplify_map_eq.
  - reflexivity.
Qed.

Lemma init_run (m : Mem U) (p : Z) (c : iox2_sample_mut_t U)
    (st : iox2_service_type_e) (v : U) (d : Deleter) :
  cells m !! p = Some c ->
  init U p st v d m
  = Done (tt, {| cells := <[p := {| service_type := st; value := Some v;
                                    deleter := d |}]> (cells m);
                 words := words m |}).
Proof.
  intros Hc.
  unfold init, init_value, bind, read_cell, write_cell, ret.
  simpl. rewrite Hc. simpl. simplify_map_eq /=.
  rewrite !insert_insert_eq. reflexivity.
Qed.

Lemma drop_run (m : Mem U) (h : Z) (c : iox2_sample_mut_t U) (u : U) :
  cells m !! h = Some c -> value c = Some u ->
  iox2_sample_mut_drop U h m
  = match deleter c with
    | NoOpDeleter => Done (tt, m)
    | DeallocDeleter => Done (tt, {| cells := delete h (cells m); words := words m |})
    end.
Proof.
  intros Hc Hv.
  unfold iox2_sample_mut_drop, bind, read_cell, as_mut, ret, run_deleter.
  rewrite Hc. simpl. rewrite Hv.
  destruct (service_type c); destruct (deleter c); reflexivity.
Qed.
End Moves.
End FfiFacts.

Section FfiExtras.
Import SampleMutFfi FfiFacts.
Context {U : Type}.

(** [iox2_sample_mut_drop] on a struct holding a sample writes no word and
    touches no other struct. With caller-provided storage (no-op deleter)
    the struct is left exactly as it was, its storage still [Some]: unlike
    [iox2_sample_mut_send], drop does not take the sample out. With heap
    storage (dealloc deleter) the struct itself is freed. *)
Theorem iox2_sample_mut_drop_effect (m : Mem U) (h : Z)
    (c : iox2_sample_mut_t U) (u : U) :
  cells m !! h = Some c -> value c = Some u ->
  exists m',
    iox2_sample_mut_drop U h m = Done (tt, m') /\
    words m' = words m /\
    (forall l, l <> h -> cells m' !! l = cells m !! l) /\
    cells m' !! h = match deleter c with
                    | NoOpDeleter => Some c
                    | DeallocDeleter => None
                    end.
Proof.
  intros Hc Hv. rewrite (drop_run m h c u Hc Hv).
  destruct (deleter c); eexists; (split; [reflexivity|]); simpl;
    (split; [reflexivity|]); split.
  - reflexivity.
  - exact Hc.
  - intros l Hl. by rewrite lookup_delete_ne by congruence.
  - by rewrite lookup_delete_eq.
Qed.

(** [iox2_sample_mut_t::init] with the no-op deleter (caller-provided
    storage) re-arms any existing struct, also one whose storage was emptied
    by an earlier send: it sets the service type, the storage to
    [Some(value)] and the deleter, and touches nothing else. A following
    [iox2_sample_mut_send] on that struct sends the new value through the
    port of the new service type and leaves the struct empty again, ready
    for the next [init]. *)
Theorem init_then_send {SendError : Type}
    (port_send : iox2_service_type_e -> U -> sum Z SendError)
    (into_c_int : SendError -> Z)
    (m : Mem U) (p : Z) (c : iox2_sample_mut_t U)
    (st : iox2_service_type_e) (v : U) :
  cells m !! p = Some c ->
  let m1 := {| cells := <[p := {| service_type := st; value := Some v;
                                  deleter := NoOpDeleter |}]> (cells m);
               words := words m |} in
  init U p st v NoOpDeleter m = Done (tt, m1) /\
  forall nrp, exists m2,
    iox2_sample_mut_send U SendError port_send into_c_int p nrp m1
    = Done (match port_send st v with
            | inl _ => IOX2_OK
            | inr e => into_c_int e
            end, m2) /\
    cells m2 !! p = Some {| service_type := st; value := None;
                            deleter := NoOpDeleter |}.
Proof.
  intros Hc m1. split; [exact (init_run m p c st v NoOpDeleter Hc)|].
  intros nrp.
  assert (Hc1 : cells m1 !! p = Some {| service_type := st; value := Some v;
                                        deleter := NoOpDeleter |})
    by (apply lookup_insert_eq).
  destruct (send_run port_send into_c_int m1 p nrp _ v Hc1 eq_refl)
    as (m2 & E & Hcl & _).
  exists m2. split; [exact E|]. rewrite Hcl. simpl. apply lookup_insert_eq.
Qed.

(** [iox2_sample_mut_send] writes the number of recipients only when the
    port's [send] succeeds and the [number_of_recipients] pointer is not
    null; on an error, or with a null pointer, no word changes. It touches
    no other struct. *)
Theorem send_writes_recipients_only_on_success {SendError : Type}
    (port_send : iox2_service_type_e -> U -> sum Z SendError)
    (into_c_int : SendError -> Z)
    (m : Mem U) (h nrp : Z) (c : iox2_sample_mut_t U) (x : U) :
  cells m !! h = Some c -> value c = Some x ->
  exists m',
    iox2_sample_mut_send U SendError port_send into_c_int h nrp m
    = Done (match port_send (service_type c) x with
            | inl _ => IOX2_OK
            | inr e => into_c_int e
            end, m') /\
    words m' = match port_send (service_type c) x with
               | inl v => if Z.eqb nrp 0 then words m else <[nrp := v]> (words m)
               | inr _ => words m
               end /\
    (forall l, l <> h -> cells m' !! l = cells m !! l).
Proof.
  intros Hc Hv.
  destruct (send_run port_send into_c_int m h nrp c x Hc Hv) as (m' & E & Hcl & Hw).
  exists m'. split; [exact E|]. split; [exact Hw|].
  intros l Hl. rewrite Hcl.
  destruct (deleter c); simpl.
  - by rewrite lookup_insert_ne by congruence.
  - by rewrite lookup_delete_ne, lookup_insert_ne by congruence.
Qed.

(** After [iox2_sample_mut_move] from [src] to [dst], a send through the
    source handle is detected as a resend and panics. When the source had
    the no-op deleter (caller-provided storage), which the move copies to
    the destination, a send through the destination handle sends the moved
    sample through the port of the source's service type. *)
Theorem move_then_send {SendError : Type}
    (port_send : iox2_service_type_e -> U -> sum Z SendError)
    (into_c_int : SendError -> Z)
    (m : Mem U) (src dst dhp : Z) (source dest : iox2_sample_mut_t U) (x : U) :
  src <> dst ->
  cells m !! src = Some source -> value source = Some x ->
  cells m !! dst = Some dest ->
  exists m',
    iox2_sample_mut_move U src dst dhp m = Done (tt, m') /\
    (forall nrp,
       iox2_sample_mut_send U SendError port_send into_c_int src nrp m'
       = Panic "Trying to send an already sent sample!") /\
    (deleter source = NoOpDeleter ->
     forall nrp, exists m'',
       iox2_sample_mut_send U SendError port_send into_c_int dst nrp m'
       = Done (match port_send (service_type source) x with
               | inl _ => IOX2_OK
               | inr e => into_c_int e
               end, m'')).
Proof.
  intros Hne Hs Hv Hd.
  destruct (move_run m src dst dhp source dest x Hne Hs Hv Hd)
    as (m' & Hmv & Hs' & Hd' & _).
  exists m'. split; [exact Hmv|]. split.
  - intros nrp. exact (send_run_empty port_send into_c_int m' src nrp _ Hs' eq_refl).
  - intros _ nrp.
    destruct (send_run port_send into_c_int m' dst nrp _ x Hd' eq_refl)
      as (m'' & E & _).
    exists m''. exact E.
Qed.

(** After [iox2_sample_mut_move], the handle written to [dest_handle_ptr]
    is usable by the payload accessors: both report the moved sample's
    payload pointer and element count. *)
Theorem move_then_payload (ipc_payload_mut_ptr local_number_of_elements : U -> Z)
    (m : Mem U) (src dst dhp : Z) (source dest : iox2_sample_mut_t U) (x : U) :
  src <> dst ->
  cells m !! src = Some source -> value source = Some x ->
  cells m !! dst = Some dest ->
  exists m',
    iox2_sample_mut_move U src dst dhp m = Done (tt, m') /\
    words m' = <[dhp := dst]> (words m) /\
    forall payload_ptr number_of_elements,
      let out := Done (tt, {| cells := cells m';
                              words := payload_outputs ipc_payload_mut_ptr
                                         local_number_of_elements m' x
                                         payload_ptr number_of_elements |}) in
      iox2_sample_mut_payload_mut U ipc_payload_mut_ptr local_number_of_elements
        dhp payload_ptr number_of_elements m' = out /\
      iox2_sample_mut_payload U ipc_payload_mut_ptr local_number_of_elements
        dhp payload_ptr number_of_elements m' = out.
Proof.
  intros Hne Hs Hv Hd.
  destruct (move_run m src dst dhp source dest x Hne Hs Hv Hd)
    as (m' & Hmv & _ & Hd' & Hw).
  exists m'. split; [exact Hmv|]. split; [exact Hw|].
  intros pp ne out.
  assert (Hh : words m' !! dhp = Some dst) by (rewrite Hw; apply lookup_insert_eq).
  split.
  - exact (payload_mut_run ipc_payload_mut_ptr local_number_of_elements
             m' dhp pp ne dst _ x Hh Hd' eq_refl).
  - exact (payload_run ipc_payload_mut_ptr local_number_of_elements
             m' dhp pp ne dst _ x Hh Hd' eq_refl).
Qed.
End FfiExtras.

Section RemoveDeadNodeExtraWitnesses.
Import DynamicConfigModel.

(** [remove_dead_node_id_unknown_node] for node 9, with endpoints on nodes
    7 and 8 only. *)
Lemma remove_dead_node_id_unknown_node_witness :
  let pd (id node : Z) :=
    {| publisher_id := id; pub_node_id := node; number_of_samples := 2;
       max_slice_len := 1; data_segment_type := Static;
       max_number_of_segments := 1; pub_owner_uid := 0; pub_group_gid := 0;
       pub_mode := 0 |} in
  let sd := {| subscriber_id := 3; sub_node_id := 7; buffer_size := 2;
               sub_owner_uid := 0; sub_group_gid := 0; sub_mode := 0 |} in
  let dc := {| publishers := [(0%nat, pd 1 7); (1%nat, pd 2 8)];
               subscribers := [(0%nat, sd)] |} in
  let cb (n : nat) (p : UniquePortId) := (Datatypes.S n, RemovePort) in
  Forall (fun e => pub_node_id (snd e) <> 9) (publishers dc) /\
  Forall (fun e => sub_node_id (snd e) <> 9) (subscribers dc) /\
  remove_dead_node_id cb dc 9 0%nat = (dc, 0%nat, []).
Proof.
  intros pd sd dc cb.
  split; [repeat constructor; simpl; lia|].
  split; [repeat constructor; simpl; lia|].
  apply (remove_dead_node_id_unknown_node cb dc 9 0%nat);
    repeat constructor; simpl; lia.
Defined.

(** [remove_dead_node_id_counts] on two publishers and one subscriber, two
    of them on node 7, with a callback that removes publishers and skips
    subscribers. *)
Lemma remove_dead_node_id_counts_witness :
  let pd (id node : Z) :=
    {| publisher_id := id; pub_node_id := node; number_of_samples := 2;
       max_slice_len := 1; data_segment_type := Static;
       max_number_of_segments := 1; pub_owner_uid := 0; pub_group_gid := 0;
       pub_mode := 0 |} in
  let sd := {| subscriber_id := 3; sub_node_id := 7; buffer_size := 2;
               sub_owner_uid := 0; sub_group_gid := 0; sub_mode := 0 |} in
  let dc := {| publishers := [(0%nat, pd 1 7); (1%nat, pd 2 8)];
               subscribers := [(0%nat, sd)] |} in
  let cb (n : nat) (p : UniquePortId) :=
    (Datatypes.S n, match p with Publisher _ => RemovePort | Subscriber _ => SkipPort end) in
  NoDup (map fst (publishers dc)) /\
  NoDup (map fst (subscribers dc)) /\
  let '(dc', _, tr) := remove_dead_node_id cb dc 7 0%nat in
  (number_of_publishers dc' + count_removed is_publisher_port tr
   = number_of_publishers dc)%nat /\
  (number_of_subscribers dc' + count_removed is_subscriber_port tr
   = number_of_subscribers dc)%nat.
Proof.
  intros pd sd dc cb.
  split; [apply (bool_decide_unpack _); vm_compute; exact I|].
  split; [apply (bool_decide_unpack _); vm_compute; exact I|].
  apply (remove_dead_node_id_counts cb dc 7 0%nat);
    apply (bool_decide_unpack _); vm_compute; exact I.
Defined.

(** [remove_dead_node_id_remove_all] on the same registry with a callback
    that removes every port. *)
Lemma remove_dead_node_id_remove_all_witness :
  let pd (id node : Z) :=
    {| publisher_id := id; pub_node_id := node; number_of_samples := 2;
       max_slice_len := 1; data_segment_type := Static;
       max_number_of_segments := 1; pub_owner_uid := 0; pub_group_gid := 0;
       pub_mode := 0 |} in
  let sd := {| subscriber_id := 3; sub_node_id := 7; buffer_size := 2;
               sub_owner_uid := 0; sub_group_gid := 0; sub_mode := 0 |} in
  let dc := {| publishers := [(0%nat, pd 1 7); (1%nat, pd 2 8)];
               subscribers := [(0%nat, sd)] |} in
  let cb (n : nat) (p : UniquePortId) := (Datatypes.S n, RemovePort) in
  (forall s0 p, snd (cb s0 p) = RemovePort) /\
  NoDup (map fst (publishers dc)) /\
  NoDup (map fst (subscribers dc)) /\
  let '(dc', s', _) := remove_dead_node_id cb dc 7 0%nat in
  publishers dc' =
    List.filter (fun e => negb (Z.eqb (pub_node_id (snd e)) 7)) (publishers dc) /\
  subscribers dc' =
    List.filter (fun e => negb (Z.eqb (sub_node_id (snd e)) 7)) (subscribers dc) /\
  remove_dead_node_id cb dc' 7 s' = (dc', s', []).
Proof.
  intros pd sd dc cb.
  split; [intros; reflexivity|].
  split; [apply (bool_decide_unpack _); vm_compute; exact I|].
  split; [apply (bool_decide_unpack _); vm_compute; exact I|].
  apply (remove_dead_node_id_remove_all cb dc 7 0%nat);
    [intros; reflexivity | apply (bool_decide_unpack _); vm_compute; exact I ..].
Defined.
End RemoveDeadNodeExtraWitnesses.

Section FfiExtraWitnesses.
Import SampleMutFfi.

(** [iox2_sample_mut_drop_effect] on a struct at 3 holding the sample 4 in
    heap storage, beside a struct at 5. *)
Lemma iox2_sample_mut_drop_effect_witness :
  let c : iox2_sample_mut_t nat :=
    {| service_type := LOCAL; value := Some 4%nat; deleter := DeallocDeleter |} in
  let m : Mem nat := {| cells := <[3 := c]> (<[5 := c]> ∅); words := <[1 := 3]> ∅ |} in
  cells m !! 3 = Some c /\ value c = Some 4%nat /\
  exists m',
    iox2_sample_mut_drop nat 3 m = Done (tt, m') /\
    words m' = words m /\
    (forall l, l <> 3 -> cells m' !! l = cells m !! l) /\
    cells m' !! 3 = match deleter c with
                    | NoOpDeleter => Some c
                    | DeallocDeleter => None
                    end.
Proof.
  intros c m.
  split; [reflexivity|]. split; [reflexivity|].
  apply (iox2_sample_mut_drop_effect m 3 c 4%nat); reflexivity.
Defined.

(** [init_then_send] re-arming a struct at 3 whose storage was emptied by a
    send, with a port whose [send] reaches [u] subscribers for the sample
    [u]. *)
Lemma init_then_send_witness :
  let c : iox2_sample_mut_t nat :=
    {| service_type := IPC; value := None; deleter := NoOpDeleter |} in
  let m : Mem nat := {| cells := <[3 := c]> ∅; words := ∅ |} in
  let port_send (t : iox2_service_type_e) (u : nat) : sum Z unit := inl (Z.of_nat u) in
  let into_c_int (e : unit) := 1 in
  cells m !! 3 = Some c /\
  let m1 := {| cells := <[3 := {| service_type := LOCAL; value := Some 6%nat;
                                  deleter := NoOpDeleter |}]> (cells m);
               words := words m |} in
  init nat 3 LOCAL 6%nat NoOpDeleter m = Done (tt, m1) /\
  forall nrp, exists m2,
    iox2_sample_mut_send nat unit port_send into_c_int 3 nrp m1
    = Done (match port_send LOCAL 6%nat with
            | inl _ => IOX2_OK
            | inr e => into_c_int e
            end, m2) /\
    cells m2 !! 3 = Some {| service_type := LOCAL; value := None;
                            deleter := NoOpDeleter |}.
Proof.
  intros c m port_send into_c_int.
  split; [reflexivity|].
  apply (init_then_send port_send into_c_int m 3 c LOCAL 6%nat).
  reflexivity.
Defined.

(** [send_writes_recipients_only_on_success] on a struct at 3 holding the
    sample 4, the count written to the word at 8. *)
Lemma send_writes_recipients_only_on_success_witness :
  let c : iox2_sample_mut_t nat :=
    {| service_type := IPC; value := Some 4%nat; deleter := NoOpDeleter |} in
  let m : Mem nat := {| cells := <[3 := c]> ∅; words := ∅ |} in
  let port_send (t : iox2_service_type_e) (u : nat) : sum Z unit := inl (Z.of_nat u) in
  let into_c_int (e : unit) := 1 in
  cells m !! 3 = Some c /\ value c = Some 4%nat /\
  exists m',
    iox2_sample_mut_send nat unit port_send into_c_int 3 8 m
    = Done (match port_send (service_type c) 4%nat with
            | inl _ => IOX2_OK
            | inr e => into_c_int e
            end, m') /\
    words m' = match port_send (service_type c) 4%nat with
               | inl v => if Z.eqb 8 0 then words m else <[8 := v]> (words m)
               | inr _ => words m
               end /\
    (forall l, l <> 3 -> cells m' !! l = cells m !! l).
Proof.
  intros c m port_send into_c_int.
  split; [reflexivity|]. split; [reflexivity|].
  apply (send_writes_recipients_only_on_success port_send into_c_int m 3 8 c 4%nat);
    reflexivity.
Defined.

(** [move_then_send] moving the struct at 1 (holding 7, caller-provided
    storage) into the struct at 2. *)
Lemma move_then_send_witness :
  let source : iox2_sample_mut_t nat :=
    {| service_type := LOCAL; value := Some 7%nat; deleter := NoOpDeleter |} in
  let dest : iox2_sample_mut_t nat :=
    {| service_type := IPC; value := None; deleter := NoOpDeleter |} in
  let m : Mem nat := {| cells := <[1 := source]> (<[2 := dest]> ∅); words := ∅ |} in
  let port_send (t : iox2_service_type_e) (u : nat) : sum Z unit := inl (Z.of_nat u) in
  let into_c_int (e : unit) := 1 in
  1 <> 2 /\ cells m !! 1 = Some source /\ value source = Some 7%nat /\
  cells m !! 2 = Some dest /\ deleter source = NoOpDeleter /\
  exists m',
    iox2_sample_mut_move nat 1 2 5 m = Done (tt, m') /\
    (forall nrp,
       iox2_sample_mut_send nat unit port_send into_c_int 1 nrp m'
       = Panic "Trying to send an already sent sample!") /\
    (forall nrp, exists m'',
       iox2_sample_mut_send nat unit port_send into_c_int 2 nrp m'
       = Done (match port_send (service_type source) 7%nat with
               | inl _ => IOX2_OK
               | inr e => into_c_int e
               end, m'')).
Proof.
  intros source dest m port_send into_c_int.
  split; [lia|]. split; [reflexivity|]. split; [reflexivity|].
  split; [reflexivity|]. split; [reflexivity|].
  destruct (move_then_send port_send into_c_int m 1 2 5 source dest 7%nat
              ltac:(lia) ltac:(reflexivity) ltac:(reflexivity) ltac:(reflexivity))
    as (m' & Hmv & Hsrc & Hdst).
  exists m'. split; [exact Hmv|]. split; [exact Hsrc|]. exact (Hdst eq_refl).
Defined.

(** [move_then_payload] moving the struct at 1 (holding 7) into the struct
    at 2, the new handle written to the word at 5. *)
Lemma move_then_payload_witness :
  let source : iox2_sample_mut_t nat :=
    {| service_type := LOCAL; value := Some 7%nat; deleter := DeallocDeleter |} in
  let dest : iox2_sample_mut_t nat :=
    {| service_type := IPC; value := None; deleter := NoOpDeleter |} in
  let m : Mem nat := {| cells := <[1 := source]> (<[2 := dest]> ∅); words := ∅ |} in
  let ipc (u : nat) := (Z.of_nat u + 100)%Z in
  let loc (u : nat) := Z.of_nat u in
  1 <> 2 /\ cells m !! 1 = Some source /\ value source = Some 7%nat /\
  cells m !! 2 = Some dest /\
  exists m',
    iox2_sample_mut_move nat 1 2 5 m = Done (tt, m') /\
    words m' = <[5 := 2]> (words m) /\
    forall payload_ptr number_of_elements,
      let out := Done (tt, {| cells := cells m';
                              words := payload_outputs ipc loc m' 7%nat
                                         payload_ptr number_of_elements |}) in
      iox2_sample_mut_payload_mut nat ipc loc 5 payload_ptr number_of_elements m' = out /\
      iox2_sample_mut_payload nat ipc loc 5 payload_ptr number_of_elements m' = out.
Proof.
  intros source dest m ipc loc.
  split; [lia|]. split; [reflexivity|]. split; [reflexivity|]. split; [reflexivity|].
  apply (move_then_payload ipc loc m 1 2 5 source dest 7%nat);
    [lia | reflexivity ..].
Defined.
End FfiExtraWitnesses.
